(** * Anomaly rule controller: a shallow embedding and its properties

    The development follows the anomaly controller whose handlers are
    mounted by [src/routes/organizationRoutes.js]:
    [addAnomaly], [getAllAnomalies], [updateAnomaly] and [deleteAnomaly].

    Request bodies are JSON objects, the durable store is a pair of tables
    (cameras, anomalies) and one join table, and every handler is a
    computation in a small monad that threads the store, records every
    storage call in order and supports the early [return res.status(..)]
    of the source.

    What the model leaves out: storage calls always return, so the [catch]
    branches of the handlers (status 500) are never taken; JSON numbers
    are the integers; identifiers are numbers, both in the tables and in
    the bodies.  A database coerces a numeric string to the key it
    spells, and the query builder throws on some operands that are not
    arrays; neither is modelled, and the statements that would depend on
    it are made for identifiers given as numbers. *)

From Stdlib Require Import ZArith.
From stdpp Require Import gmap strings list fin_maps.

Local Open Scope Z_scope.
Local Open Scope string_scope.
Local Set Warnings "-register-all".

(** ** JavaScript values as they arrive in a parsed JSON body *)

Module Js.

(** Numbers are the integral ones; [Undefined] is what reading an absent
    property yields. *)
Inductive value : Type :=
| Undefined
| Null
| Bool (b : bool)
| Num (n : Z)
| Str (s : string)
| Arr (items : list value)
| Obj (fields : list (string * value)).

(** [ToBoolean]: what [!v] and [if (v)] look at. *)
Definition truthy (v : value) : bool :=
  match v with
  | Undefined | Null => false
  | Bool b => b
  | Num n => negb (n =? 0)%Z
  | Str s => negb (String.eqb s "")
  | Arr _ | Obj _ => true
  end.

(** [a ?? b] *)
Definition nullish (v : value) : bool :=
  match v with
  | Undefined | Null => true
  | _ => false
  end.

Definition coalesce (a b : value) : value :=
  if nullish a then b else a.

(** What a column holds once a value is stored in it: an attribute that
    is [undefined] is stored as NULL. *)
Definition orNull (v : value) : value :=
  match v with
  | Undefined => Null
  | _ => v
  end.

(** [Array.isArray] *)
Definition isArray (v : value) : bool :=
  match v with
  | Arr _ => true
  | _ => false
  end.

(** Property read on a plain object: [Undefined] when the key is absent. *)
Fixpoint get (fields : list (string * value)) (key : string) : value :=
  match fields with
  | [] => Undefined
  | (k, v) :: rest => if String.eqb k key then v else get rest key
  end.

(** [v.length] *)
Definition length (v : value) : value :=
  match v with
  | Arr items => Num (Z.of_nat (List.length items))
  | Str s => Num (Z.of_nat (String.length s))
  | Obj fields => get fields "length"
  | _ => Undefined
  end.

(** SameValueZero, the comparison of [Array.prototype.includes].  Two
    arrays or objects are the same only when they are the same
    reference, which a freshly parsed body never is with a constant. *)
Definition sameValueZero (a b : value) : bool :=
  match a, b with
  | Undefined, Undefined => true
  | Null, Null => true
  | Bool x, Bool y => Bool.eqb x y
  | Num x, Num y => (x =? y)%Z
  | Str x, Str y => String.eqb x y
  | _, _ => false
  end.

(** The elements of an array. *)
Definition items (v : value) : list value :=
  match v with
  | Arr xs => xs
  | _ => []
  end.

(** [xs.includes(v)] *)
Definition includes (xs : list value) (v : value) : bool :=
  existsb (sameValueZero v) xs.

(** [xs.every(p)] *)
Definition every (p : value → bool) (xs : list value) : bool :=
  forallb p xs.

(** [n !== v] for a number [n] (strict inequality, no coercion). *)
Definition num_strict_ne (n : Z) (v : value) : bool :=
  match v with
  | Num m => negb (n =? m)%Z
  | _ => true
  end.

(** [v === n] for a number [n]. *)
Definition strict_eq_num (v : value) (n : Z) : bool :=
  match v with
  | Num m => (m =? n)%Z
  | _ => false
  end.

End Js.

(** Modelled from the spec: [constants/days] is required by the controller
    but is not among the sources; the specification gives the weekday
    domain as the seven values Sun, Mon, Tue, Wed, Thu, Fri, Sat. *)
Definition DAYS_OF_WEEK : list Js.value :=
  [Js.Str "Sun"; Js.Str "Mon"; Js.Str "Tue"; Js.Str "Wed";
   Js.Str "Thu"; Js.Str "Fri"; Js.Str "Sat"].

(** ** Tables *)

Module CameraRow.

(** Modelled from the spec: the Camera model file is not among the
    sources.  A camera has an identifier (the table key), a location, a
    network address, a type, an online/offline status and its owning
    organization; the column names are the ones the controller uses. *)
Record t : Type := {
  location : Js.value;
  ipAddress : Js.value;
  cameraType : Js.value;
  status : Js.value;
  organizationId : Z
}.

End CameraRow.

Module AnomalyRow.

(** Modelled from the spec: the Anomaly model file is not among the
    sources; the columns are those the controller reads and writes. *)
Record t : Type := {
  title : Js.value;
  description : Js.value;
  criticality : Js.value;
  modelName : Js.value;
  status : Js.value;
  organizationId : Z;
  startTime : Js.value;
  endTime : Js.value;
  daysOfWeek : Js.value
}.

End AnomalyRow.

(** The store: both tables keyed by their surrogate identifier, the
    rule-camera join relation as a set of (anomalyId, cameraId) pairs, the
    counter the anomalies table draws fresh keys from, and the column
    default of [status], which [Anomaly.create] is not given.

    Modelled from the spec: the through model of the many-to-many
    association is not among the sources.  An include of the cameras of
    a rule attaches to every camera one more property, named after the
    through model and holding the join row; [throughName] is that name
    and [throughJSON a c] the rendering of the join row of rule [a] and
    camera [c]. *)
Record Store : Type := {
  cameras : gmap Z CameraRow.t;
  anomalies : gmap Z AnomalyRow.t;
  anomalyCameras : gset (Z * Z);
  nextAnomalyId : Z;
  statusDefault : Js.value;
  throughName : string;
  throughJSON : Z → Z → Js.value
}.

(** ** Requests and responses *)

(** [req.user.organizationId], [req.params.anomalyId] and [req.body]. *)
Record Request : Type := {
  user_organizationId : Z;
  params_anomalyId : Z;
  body : list (string * Js.value)
}.

(** A rule serialised together with its included cameras. *)
Record AnomalyJson : Type := {
  anomalyId : Z;
  columns : AnomalyRow.t;
  Cameras : list (list (string * Js.value))
}.

(** The shapes passed to [res.json]. *)
Inductive Payload : Type :=
| ErrorBody (error : string)
| MessageBody (message : string)
| CreatedBody (anomaly : option AnomalyJson)
| UpdatedBody (message : string) (anomaly : option AnomalyJson)
| ListBody (anomalies : list AnomalyJson).

Record Response : Type := {
  statusCode : Z;
  payload : Payload
}.

(** ** The handler monad *)

(** One constructor per storage call the controller makes. *)
Inductive Call : Type :=
| CameraFindAll (cameraIds : Js.value) (organizationId : Z)
| AnomalyCreate (anomalyId : Z)
| AnomalySetCameras (anomalyId : Z) (cameraIds : list Z)
| AnomalyFindByPk (anomalyId : Z)
| AnomalyFindAll (organizationId : Z)
| AnomalyFindOne (anomalyId organizationId : Z)
| AnomalySave (anomalyId : Z)
| AnomalyDestroy (anomalyId : Z).

(** The store, and the storage calls made so far, oldest first, each with
    the store it left behind. *)
Record World : Type := {
  db : Store;
  log : list (Call * Store)
}.

(** A step either goes on with a value or has sent the response. *)
Inductive Outcome (A : Type) : Type :=
| Next (a : A)
| Sent (r : Response).
Arguments Next {A} a.
Arguments Sent {A} r.

Definition M (A : Type) : Type := World → Outcome A * World.

#[export] Instance M_ret : MRet M := λ A a w, (Next a, w).

#[export] Instance M_bind : MBind M := λ A B f m w,
  match m w with
  | (Next a, w') => f a w'
  | (Sent r, w') => (Sent r, w')
  end.

(** [return res.status(code).json(payload)] *)
Definition send {A : Type} (code : Z) (p : Payload) : M A :=
  λ w, (Sent {| statusCode := code; payload := p |}, w).

(** An awaited storage call. *)
Definition await {A : Type} (c : Call) (f : Store → A * Store) : M A :=
  λ w, let '(a, s) := f (db w) in
       (Next a, {| db := s; log := log w ++ [(c, s)] |}).

(** Running a handler against a store.  Every path of a handler ends in
    [send], which its type records. *)
Definition handle (h : M Empty_set) (s : Store) : Response * World :=
  match h {| db := s; log := [] |} with
  | (Sent r, w) => (r, w)
  | (Next e, _) => match e with end
  end.

(** ** The model layer *)

Module Camera.

(** A fetched instance: the key together with its row. *)
Abbreviation t := (Z * CameraRow.t)%type.

Definition cameraId (c : t) : Z := c.1.

(** The instance as a plain object, every column present. *)
Definition toJSON (c : t) : list (string * Js.value) :=
  [("cameraId", Js.Num c.1);
   ("location", CameraRow.location c.2);
   ("ipAddress", CameraRow.ipAddress c.2);
   ("cameraType", CameraRow.cameraType c.2);
   ("status", CameraRow.status c.2);
   ("organizationId", Js.Num (CameraRow.organizationId c.2))].

(** The [attributes: [...]] option of an include: only the named
    columns are selected. *)
Definition select (attributes : list string) (c : t) : list (string * Js.value) :=
  List.filter (λ kv, bool_decide (kv.1 ∈ attributes)) (toJSON c).

(** The identifier a body value denotes, if any: identifiers travel as
    JSON numbers.  (A string that spells a number, which the database
    would coerce, denotes none here.) *)
Definition asId (v : Js.value) : option Z :=
  match v with
  | Js.Num n => Some n
  | _ => None
  end.

(** The identifiers an [Op.in] operand lists.  An operand that is not a
    list matches no row here (the query builder may throw on it
    instead). *)
Definition listed (operand : Js.value) : list Z :=
  match operand with
  | Js.Arr items => omap asId items
  | _ => []
  end.

(** [WHERE cameraId IN (...) AND organizationId = ...]: every matching
    row of the table, once. *)
Definition rows_in (s : Store) (cameraIds : Js.value) (organizationId : Z) : list t :=
  filter (λ c : t, c.1 ∈ listed cameraIds ∧ CameraRow.organizationId c.2 = organizationId)
         (map_to_list (cameras s)).

(** The cameras joined to a rule. *)
Definition of_anomaly (s : Store) (anomalyId : Z) : list t :=
  filter (λ c : t, (anomalyId, c.1) ∈ anomalyCameras s) (map_to_list (cameras s)).

(** [Camera.findAll({ where: { cameraId: { [Op.in]: cameraIds }, organizationId } })] *)
Definition findAll (cameraIds : Js.value) (organizationId : Z) : M (list t) :=
  await (CameraFindAll cameraIds organizationId)
        (λ s, (rows_in s cameraIds organizationId, s)).

End Camera.

Module Anomaly.

(** A fetched instance: the key together with its row. *)
Abbreviation t := (Z * AnomalyRow.t)%type.

(** The join relation once a rule's camera set is replaced: the rule's
    old pairs go, one pair per given camera comes. *)
Definition rebind (anomalyId : Z) (cameraIds : list Z) (joins : gset (Z * Z)) : gset (Z * Z) :=
  filter (λ p : Z * Z, p.1 ≠ anomalyId) joins
  ∪ list_to_set ((λ c, (anomalyId, c)) <$> cameraIds).

Definition with_anomalies (f : gmap Z AnomalyRow.t → gmap Z AnomalyRow.t) (s : Store) : Store :=
  {| cameras := cameras s;
     anomalies := f (anomalies s);
     anomalyCameras := anomalyCameras s;
     nextAnomalyId := nextAnomalyId s;
     statusDefault := statusDefault s;
     throughName := throughName s;
     throughJSON := throughJSON s |}.

Definition with_joins (f : gset (Z * Z) → gset (Z * Z)) (s : Store) : Store :=
  {| cameras := cameras s;
     anomalies := anomalies s;
     anomalyCameras := f (anomalyCameras s);
     nextAnomalyId := nextAnomalyId s;
     statusDefault := statusDefault s;
     throughName := throughName s;
     throughJSON := throughJSON s |}.

(** The property an include attaches to a camera joined to a rule: the
    join row, under the name of the through model. *)
Definition through (s : Store) (anomalyId cameraId : Z) : string * Js.value :=
  (throughName s, throughJSON s anomalyId cameraId).

(** An included camera of rule [anomalyId]: its columns as [render] gives
    them, and the join row. *)
Definition joined (s : Store) (anomalyId : Z) (render : Camera.t → list (string * Js.value))
    (c : Camera.t) : list (string * Js.value) :=
  (render c ++ [through s anomalyId c.1])%list.

(** A row with its included cameras. *)
Definition included (s : Store) (render : Camera.t → list (string * Js.value)) (a : t) : AnomalyJson :=
  {| anomalyId := a.1;
     columns := a.2;
     Cameras := joined s a.1 render <$> Camera.of_anomaly s a.1 |}.

(** [Anomaly.create({...})]: the row is stored under a fresh key,
    [status] takes its column default and an attribute given as
    [undefined] is stored as NULL. *)
Definition create (title description criticality modelName : Js.value) (organizationId : Z)
    (startTime endTime daysOfWeek : Js.value) : M t :=
  λ w,
    let s := db w in
    let id := nextAnomalyId s in
    let r := {| AnomalyRow.title := Js.orNull title;
                AnomalyRow.description := Js.orNull description;
                AnomalyRow.criticality := Js.orNull criticality;
                AnomalyRow.modelName := Js.orNull modelName;
                AnomalyRow.status := statusDefault s;
                AnomalyRow.organizationId := organizationId;
                AnomalyRow.startTime := Js.orNull startTime;
                AnomalyRow.endTime := Js.orNull endTime;
                AnomalyRow.daysOfWeek := Js.orNull daysOfWeek |} in
    await (AnomalyCreate id)
          (λ s, ((id, r),
                 {| cameras := cameras s;
                    anomalies := <[id := r]> (anomalies s);
                    anomalyCameras := anomalyCameras s;
                    nextAnomalyId := id + 1;
                    statusDefault := statusDefault s;
                    throughName := throughName s;
                    throughJSON := throughJSON s |})) w.

(** [anomaly.setCameras(cameras)] *)
Definition setCameras (anomaly : t) (cams : list Camera.t) : M unit :=
  await (AnomalySetCameras anomaly.1 (Camera.cameraId <$> cams))
        (λ s, (tt, with_joins (rebind anomaly.1 (Camera.cameraId <$> cams)) s)).

(** [Anomaly.findByPk(id, { include: [{ model: Camera }] })] *)
Definition findByPk (anomalyId : Z) : M (option AnomalyJson) :=
  await (AnomalyFindByPk anomalyId)
        (λ s, ((λ r, included s Camera.toJSON (anomalyId, r)) <$> anomalies s !! anomalyId, s)).

(** [Anomaly.findAll({ where: { organizationId },
    include: [{ model: Camera, attributes }] })] *)
Definition findAll (organizationId : Z) (attributes : list string) : M (list AnomalyJson) :=
  await (AnomalyFindAll organizationId)
        (λ s, (included s (Camera.select attributes)
                 <$> filter (λ a : t, AnomalyRow.organizationId a.2 = organizationId)
                            (map_to_list (anomalies s)), s)).

(** The row with this key and this organization, if there is one. *)
Definition owned_by (s : Store) (anomalyId organizationId : Z) : option t :=
  match anomalies s !! anomalyId with
  | Some r =>
      if decide (AnomalyRow.organizationId r = organizationId)
      then Some (anomalyId, r) else None
  | None => None
  end.

(** [Anomaly.findOne({ where: { anomalyId, organizationId } })] *)
Definition findOne (anomalyId organizationId : Z) : M (option t) :=
  await (AnomalyFindOne anomalyId organizationId)
        (λ s, (owned_by s anomalyId organizationId, s)).

(** [anomaly.save()] *)
Definition save (anomaly : t) : M unit :=
  await (AnomalySave anomaly.1)
        (λ s, (tt, with_anomalies (insert anomaly.1 anomaly.2) s)).

(** [anomaly.destroy()] *)
Definition destroy (anomaly : t) : M unit :=
  await (AnomalyDestroy anomaly.1)
        (λ s, (tt, with_anomalies (delete anomaly.1) s)).

End Anomaly.

(** ** The controller *)

Definition addAnomaly (req : Request) : M Empty_set :=
  let organizationId := user_organizationId req in
  let title := Js.get (body req) "title" in
  let description := Js.get (body req) "description" in
  let criticality := Js.get (body req) "criticality" in
  let modelName := Js.get (body req) "modelName" in
  let cameraIds := Js.get (body req) "cameraIds" in
  let startTime := Js.get (body req) "startTime" in
  let endTime := Js.get (body req) "endTime" in
  let daysOfWeek := Js.get (body req) "daysOfWeek" in
  if negb (Js.truthy title) || negb (Js.truthy description) || negb (Js.truthy modelName)
     || negb (Js.truthy cameraIds) || negb (Js.truthy startTime) || negb (Js.truthy endTime)
     || negb (Js.truthy daysOfWeek)
  then send 400 (ErrorBody "Missing required fields")
  else if negb (Js.isArray cameraIds) || Js.strict_eq_num (Js.length cameraIds) 0
  then send 400 (ErrorBody "cameraIds must be a non-empty array")
  else if negb (Js.isArray daysOfWeek)
  then send 400 (ErrorBody "daysOfWeek must be an array")
  else if negb (Js.every (λ day, Js.includes DAYS_OF_WEEK day) (Js.items daysOfWeek))
  then send 400 (ErrorBody "Invalid day values")
  else
    cameras ← Camera.findAll cameraIds organizationId;
    if Js.num_strict_ne (Z.of_nat (length cameras)) (Js.length cameraIds)
    then send 404 (ErrorBody "One or more cameras not found or access denied")
    else
      anomaly ← Anomaly.create title description criticality modelName organizationId
                               startTime endTime daysOfWeek;
      Anomaly.setCameras anomaly cameras;;
      createdAnomaly ← Anomaly.findByPk anomaly.1;
      send 201 (CreatedBody createdAnomaly).

Definition getAllAnomalies (req : Request) : M Empty_set :=
  let organizationId := user_organizationId req in
  anomalies ← Anomaly.findAll organizationId ["cameraId"; "location"; "ipAddress"; "cameraType"];
  send 200 (ListBody anomalies).

Definition updateAnomaly (req : Request) : M Empty_set :=
  let anomalyId := params_anomalyId req in
  let title := Js.get (body req) "title" in
  let description := Js.get (body req) "description" in
  let criticality := Js.get (body req) "criticality" in
  let modelName := Js.get (body req) "modelName" in
  let status := Js.get (body req) "status" in
  let cameraIds := Js.get (body req) "cameraIds" in
  let organizationId := user_organizationId req in
  found ← Anomaly.findOne anomalyId organizationId;
  match found with
  | None => send 404 (MessageBody "Anomaly not found or does not belong to your organization")
  | Some anomaly =>
      (if Js.truthy cameraIds
       then
         cameras ← Camera.findAll cameraIds organizationId;
         if Js.num_strict_ne (Z.of_nat (length cameras)) (Js.length cameraIds)
         then send 404 (MessageBody "One or more cameras not found or access denied")
         else Anomaly.setCameras anomaly cameras
       else mret tt);;
      let anomaly : Anomaly.t :=
        (anomaly.1,
         {| AnomalyRow.title := Js.coalesce title (AnomalyRow.title anomaly.2);
            AnomalyRow.description := Js.coalesce description (AnomalyRow.description anomaly.2);
            AnomalyRow.criticality := Js.coalesce criticality (AnomalyRow.criticality anomaly.2);
            AnomalyRow.modelName := Js.coalesce modelName (AnomalyRow.modelName anomaly.2);
            AnomalyRow.status := Js.coalesce status (AnomalyRow.status anomaly.2);
            AnomalyRow.organizationId := AnomalyRow.organizationId anomaly.2;
            AnomalyRow.startTime := AnomalyRow.startTime anomaly.2;
            AnomalyRow.endTime := AnomalyRow.endTime anomaly.2;
            AnomalyRow.daysOfWeek := AnomalyRow.daysOfWeek anomaly.2 |}) in
      Anomaly.save anomaly;;
      updatedAnomaly ← Anomaly.findByPk anomalyId;
      send 200 (UpdatedBody "Anomaly updated successfully" updatedAnomaly)
  end.

Definition deleteAnomaly (req : Request) : M Empty_set :=
  let anomalyId := params_anomalyId req in
  let organizationId := user_organizationId req in
  found ← Anomaly.findOne anomalyId organizationId;
  match found with
  | None => send 404 (MessageBody "Anomaly not found or does not belong to your organization")
  | Some anomaly =>
      Anomaly.setCameras anomaly [];;
      Anomaly.destroy anomaly;;
      send 200 (MessageBody "Anomaly deleted successfully")
  end.

(** ** What a handler did: response, final store, storage calls *)

Definition response (h : M Empty_set) (s : Store) : Response := (handle h s).1.
Definition final (h : M Empty_set) (s : Store) : Store := db (handle h s).2.
Definition calls (h : M Empty_set) (s : Store) : list (Call * Store) := log (handle h s).2.

(** ** Vocabulary of the statements *)

(** Camera [cameraId] exists and belongs to [organizationId]. *)
Definition owned (s : Store) (organizationId cameraId : Z) : Prop :=
  CameraRow.organizationId <$> cameras s !! cameraId = Some organizationId.

(** The count check of camera resolution passes for the array [items]. *)
Definition resolution_passes (s : Store) (organizationId : Z) (items : list Js.value) : Prop :=
  length (Camera.rows_in s (Js.Arr items) organizationId) = length items.

(** Every element is the identifier of a camera of the organization. *)
Definition all_owned (s : Store) (organizationId : Z) (items : list Js.value) : Prop :=
  Forall (λ v, ∃ n, v = Js.Num n ∧ owned s organizationId n) items.

(** The body keys a create cannot do without. *)
Definition required_fields : list string :=
  ["title"; "description"; "modelName"; "cameraIds"; "startTime"; "endTime"; "daysOfWeek"].

(** The request with its two time-of-day fields exchanged. *)
Definition swap_times (req : Request) : Request :=
  {| user_organizationId := user_organizationId req;
     params_anomalyId := params_anomalyId req;
     body := ("startTime", Js.get (body req) "endTime")
             :: ("endTime", Js.get (body req) "startTime")
             :: body req |}.

(** The request with body property [k] set to [v]. *)
Definition with_field (k : string) (v : Js.value) (req : Request) : Request :=
  {| user_organizationId := user_organizationId req;
     params_anomalyId := params_anomalyId req;
     body := (k, v) :: body req |}.

(** The seven required fields of a create are present (truthy), the
    camera collection is a non-empty array and the weekday collection is
    an array of values of the weekday domain. *)
Definition create_fields_valid (req : Request) (items days : list Js.value) : Prop :=
  Forall (λ k, Js.truthy (Js.get (body req) k) = true) required_fields
  ∧ Js.get (body req) "cameraIds" = Js.Arr items ∧ items ≠ []
  ∧ Js.get (body req) "daysOfWeek" = Js.Arr days ∧ Forall (λ d, d ∈ DAYS_OF_WEEK) days.

(** Modelled from the spec: the rules a camera is bound to, the query the
    specification calls "querying the camera's rules" (the accessor of the
    many-to-many relation on the camera side; the controller under study
    never calls it). *)
Definition rules_of_camera (s : Store) (cameraId : Z) : list Anomaly.t :=
  filter (λ a : Anomaly.t, (a.1, cameraId) ∈ anomalyCameras s) (map_to_list (anomalies s)).

(** What a listing shows of a camera: identifier, location, network
    address and type. *)
Definition public_view (c : Camera.t) : list (string * Js.value) :=
  [("cameraId", Js.Num c.1);
   ("location", CameraRow.location c.2);
   ("ipAddress", CameraRow.ipAddress c.2);
   ("cameraType", CameraRow.cameraType c.2)].

(** No association of the store [now] is left without its rule, among
    those whose rule existed in [before]. *)
Definition no_dangling (before now : Store) : Prop :=
  ∀ p, p ∈ anomalyCameras now →
       is_Some (anomalies before !! p.1) → is_Some (anomalies now !! p.1).


(** ** A site used in the worked scenarios *)

(** Organization 7 owns cameras 1 and 2, organization 3 owns camera 99;
    rule 5 belongs to organization 7 and watches camera 2. *)
Definition gate_camera (organizationId : Z) : CameraRow.t :=
  {| CameraRow.location := Js.Str "gate";
     CameraRow.ipAddress := Js.Str "10.0.0.1";
     CameraRow.cameraType := Js.Str "dome";
     CameraRow.status := Js.Str "online";
     CameraRow.organizationId := organizationId |}.

Definition night_rule : AnomalyRow.t :=
  {| AnomalyRow.title := Js.Str "Loitering";
     AnomalyRow.description := Js.Str "Person at the gate";
     AnomalyRow.criticality := Js.Str "low";
     AnomalyRow.modelName := Js.Str "loiter-v1";
     AnomalyRow.status := Js.Str "active";
     AnomalyRow.organizationId := 7;
     AnomalyRow.startTime := Js.Str "22:00";
     AnomalyRow.endTime := Js.Str "06:00";
     AnomalyRow.daysOfWeek := Js.Arr [Js.Str "Sat"; Js.Str "Sun"] |}.

Definition site : Store :=
  {| cameras := <[1 := gate_camera 7]> (<[2 := gate_camera 7]> (<[99 := gate_camera 3]> ∅));
     anomalies := <[5 := night_rule]> ∅;
     anomalyCameras := {[ (5, 2) ]};
     nextAnomalyId := 6;
     statusDefault := Js.Str "active";
     throughName := "AnomalyCameras";
     throughJSON := λ a c, Js.Obj [("anomalyId", Js.Num a); ("cameraId", Js.Num c)] |}.

(** A request of organization 7 about rule 5. *)
Definition request (fields : list (string * Js.value)) : Request :=
  {| user_organizationId := 7; params_anomalyId := 5; body := fields |}.

(** A complete create body but for its title and its criticality: an
    overnight window on two weekdays. *)
Definition untitled (cameraIds : list Js.value) : list (string * Js.value) :=
  [("description", Js.Str "Vehicle in the yard");
   ("modelName", Js.Str "vehicle-v2");
   ("cameraIds", Js.Arr cameraIds);
   ("startTime", Js.Str "23:30");
   ("endTime", Js.Str "04:00");
   ("daysOfWeek", Js.Arr [Js.Str "Mon"; Js.Str "Fri"])].

Definition titled (cameraIds : list Js.value) : list (string * Js.value) :=
  ("title", Js.Str "Night traffic") :: untitled cameraIds.

(** ** Guards and outcomes, spelled out for the statements *)

(** The first guard of [addAnomaly], as a function of the body. *)
Definition missing_required (req : Request) : bool :=
  negb (forallb (λ k, Js.truthy (Js.get (body req) k)) required_fields).

(** The status a create ends with, guard by guard. *)
Definition create_status (req : Request) (s : Store) : Z :=
  let cameraIds := Js.get (body req) "cameraIds" in
  let daysOfWeek := Js.get (body req) "daysOfWeek" in
  if missing_required req then 400
  else if negb (Js.isArray cameraIds) || Js.strict_eq_num (Js.length cameraIds) 0 then 400
  else if negb (Js.isArray daysOfWeek) then 400
  else if negb (Js.every (λ day, Js.includes DAYS_OF_WEEK day) (Js.items daysOfWeek)) then 400
  else if Js.num_strict_ne
            (Z.of_nat (length (Camera.rows_in s cameraIds (user_organizationId req))))
            (Js.length cameraIds)
  then 404 else 201.

(** The row a passing create stores, and the store once it is stored. *)
Definition created_row (req : Request) (s : Store) : AnomalyRow.t :=
  {| AnomalyRow.title := Js.orNull (Js.get (body req) "title");
     AnomalyRow.description := Js.orNull (Js.get (body req) "description");
     AnomalyRow.criticality := Js.orNull (Js.get (body req) "criticality");
     AnomalyRow.modelName := Js.orNull (Js.get (body req) "modelName");
     AnomalyRow.status := statusDefault s;
     AnomalyRow.organizationId := user_organizationId req;
     AnomalyRow.startTime := Js.orNull (Js.get (body req) "startTime");
     AnomalyRow.endTime := Js.orNull (Js.get (body req) "endTime");
     AnomalyRow.daysOfWeek := Js.orNull (Js.get (body req) "daysOfWeek") |}.

Definition created_store (req : Request) (s : Store) : Store :=
  {| cameras := cameras s;
     anomalies := <[nextAnomalyId s := created_row req s]> (anomalies s);
     anomalyCameras := anomalyCameras s;
     nextAnomalyId := nextAnomalyId s + 1;
     statusDefault := statusDefault s;
     throughName := throughName s;
     throughJSON := throughJSON s |}.

(** The row an update saves over [r]. *)
Definition merged_row (req : Request) (r : AnomalyRow.t) : AnomalyRow.t :=
  {| AnomalyRow.title := Js.coalesce (Js.get (body req) "title") (AnomalyRow.title r);
     AnomalyRow.description := Js.coalesce (Js.get (body req) "description") (AnomalyRow.description r);
     AnomalyRow.criticality := Js.coalesce (Js.get (body req) "criticality") (AnomalyRow.criticality r);
     AnomalyRow.modelName := Js.coalesce (Js.get (body req) "modelName") (AnomalyRow.modelName r);
     AnomalyRow.status := Js.coalesce (Js.get (body req) "status") (AnomalyRow.status r);
     AnomalyRow.organizationId := AnomalyRow.organizationId r;
     AnomalyRow.startTime := AnomalyRow.startTime r;
     AnomalyRow.endTime := AnomalyRow.endTime r;
     AnomalyRow.daysOfWeek := AnomalyRow.daysOfWeek r |}.


(** The camera guard of an update lets the request through: no camera
    collection is supplied, or its count check passes. *)
Definition camera_guard_passes (req : Request) (s : Store) : Prop :=
  let cameraIds := Js.get (body req) "cameraIds" in
  Js.truthy cameraIds = true →
  Js.num_strict_ne
    (Z.of_nat (length (Camera.rows_in s cameraIds (user_organizationId req))))
    (Js.length cameraIds) = false.

Ltac unfold_handler :=
  unfold response, final, calls, handle,
    addAnomaly, getAllAnomalies, updateAnomaly, deleteAnomaly;
  unfold mbind, M_bind, mret, M_ret, send,
    Camera.findAll, Anomaly.create, Anomaly.setCameras, Anomaly.findByPk,
    Anomaly.findAll, Anomaly.findOne, Anomaly.save, Anomaly.destroy, await.

(** Membership in, and [Forall] over, a list that is written out. *)
Ltac by_listing := repeat constructor.

(** A disequality between values that evaluate. *)
Ltac by_running := let H := fresh in intros H; vm_compute in H; discriminate H.

(** ** Store invariants *)

(** Every association joins a stored rule to a stored camera of the same
    organization. *)
Definition consistent (s : Store) : Prop :=
  ∀ a c, (a, c) ∈ anomalyCameras s →
    ∃ ra rc, anomalies s !! a = Some ra
             ∧ cameras s !! c = Some rc
             ∧ AnomalyRow.organizationId ra = CameraRow.organizationId rc.

(** The key counter is ahead of every rule key in use, in the rules table
    and in the join relation. *)
Definition counter_fresh (s : Store) : Prop :=
  (∀ a, is_Some (anomalies s !! a) → a < nextAnomalyId s)
  ∧ (∀ a c, (a, c) ∈ anomalyCameras s → a < nextAnomalyId s).

(** The body keys [addAnomaly] and [updateAnomaly] destructure. *)
Definition create_keys : list string :=
  ["title"; "description"; "criticality"; "modelName"; "cameraIds";
   "startTime"; "endTime"; "daysOfWeek"].

Definition update_keys : list string :=
  ["title"; "description"; "criticality"; "modelName"; "status"; "cameraIds"].

(** The store with rule [anomalyId] taken out of the rules table. *)
Definition without_rule (anomalyId : Z) (s : Store) : Store :=
  Anomaly.with_anomalies (delete anomalyId) s.

(** The same request about another rule, and on behalf of another
    organization. *)
Definition about (anomalyId : Z) (req : Request) : Request :=
  {| user_organizationId := user_organizationId req;
     params_anomalyId := anomalyId;
     body := body req |}.

Definition on_behalf_of (organizationId : Z) (req : Request) : Request :=
  {| user_organizationId := organizationId;
     params_anomalyId := params_anomalyId req;
     body := body req |}.

(** ** The routers *)

(** How a router matches a request, with the defaults the source keeps
    (case-insensitive, non-strict).  A request path is given relative to
    the mount point of the router and split at its slashes, a trailing
    slash dropped; parameter values are the raw segments. *)
Module Express.

(** The methods the two routers are asked for.  OPTIONS, which a router
    answers by itself, is left out. *)
Inductive method : Type := GET | HEAD | POST | PUT | PATCH | DELETE.

(** One segment of a route path: literal text, or [:name]. *)
Inductive piece : Type :=
| Lit (text : string)
| Param (name : string).

Definition lower (a : Ascii.ascii) : Ascii.ascii :=
  let n := Ascii.nat_of_ascii a in
  if ((65 <=? n) && (n <=? 90))%nat then Ascii.ascii_of_nat (n + 32) else a.

Fixpoint lowercase (s : string) : string :=
  match s with
  | EmptyString => EmptyString
  | String a rest => String (lower a) (lowercase rest)
  end.

(** Literal text is compared without regard to the case of letters. *)
Definition same_text (a b : string) : bool :=
  String.eqb (lowercase a) (lowercase b).

(** A route registered for [verb] handles method [m]; routes registered
    with [router.get] handle HEAD as well when, as here, no route is
    registered for HEAD. *)
Definition handles (verb m : method) : bool :=
  match verb, m with
  | GET, GET | GET, HEAD | HEAD, HEAD | POST, POST | PUT, PUT
  | PATCH, PATCH | DELETE, DELETE => true
  | _, _ => false
  end.

(** The parameters a route path binds on a request path, if it matches:
    literal segments must agree, a parameter takes one non-empty
    segment, and the lengths must be the same. *)
Fixpoint bind (pattern : list piece) (path : list string) : option (list (string * string)) :=
  match pattern, path with
  | [], [] => Some []
  | Lit text :: pattern', segment :: path' =>
      if same_text text segment then bind pattern' path' else None
  | Param name :: pattern', segment :: path' =>
      if String.eqb segment "" then None
      else cons (name, segment) <$> bind pattern' path'
  | _, _ => None
  end.

End Express.

(** The handlers the routers import, by name. *)
Module Controller.

Inductive name : Type :=
| updateOrganization
| getAllCameras | getOnlineCameras | addCamera | updateCamera | deleteCamera
| getCameraAnomalyStats | getComprehensiveCameraData
| getAllAnomalies | addAnomaly | updateAnomaly | deleteAnomaly
| getAnomalyAlerts | getAnomaliesStats | createAnomalyAlert | updateAnomalyAlert.

End Controller.

(** Modelled from the spec: [constants/roles] is not among the sources;
    the routers use its ORGANIZATION_ADMIN only. *)
Inductive Role : Type :=
| ORGANIZATION_ADMIN
| OtherRole (label : string).

(** [router.verb(path, authorizeRole(role), handler)] *)
Record Route : Type := {
  verb : Express.method;
  path : list Express.piece;
  role : Role;
  handler : Controller.name
}.

Definition route (v : Express.method) (p : list Express.piece) (h : Controller.name) : Route :=
  {| verb := v; path := p; role := ORGANIZATION_ADMIN; handler := h |}.

(** The router of [routes/organizationRoutes.js], in registration order. *)
Definition organizationRoutes : list Route :=
  [route Express.PUT [Express.Param "orgId"] Controller.updateOrganization;
   route Express.GET [Express.Param "orgId"; Express.Lit "cameras"] Controller.getAllCameras;
   route Express.GET [Express.Param "orgId"; Express.Lit "cameras"; Express.Lit "online"]
         Controller.getOnlineCameras;
   route Express.POST [Express.Param "orgId"; Express.Lit "camera"] Controller.addCamera;
   route Express.PUT [Express.Param "orgId"; Express.Lit "camera"; Express.Param "cameraId"]
         Controller.updateCamera;
   route Express.DELETE [Express.Param "orgId"; Express.Lit "camera"; Express.Param "cameraId"]
         Controller.deleteCamera;
   route Express.GET [Express.Param "orgId"; Express.Lit "camera"; Express.Lit "anomaly-stats"]
         Controller.getCameraAnomalyStats;
   route Express.GET [Express.Param "orgId"; Express.Lit "cameras"; Express.Lit "comprehensive"]
         Controller.getComprehensiveCameraData;
   route Express.GET [Express.Param "orgId"; Express.Lit "anomalies"] Controller.getAllAnomalies;
   route Express.POST [Express.Param "orgId"; Express.Lit "anomaly"] Controller.addAnomaly;
   route Express.PUT [Express.Param "orgId"; Express.Lit "anomaly"; Express.Param "anomalyId"]
         Controller.updateAnomaly;
   route Express.DELETE [Express.Param "orgId"; Express.Lit "anomaly"; Express.Param "anomalyId"]
         Controller.deleteAnomaly].

(** The router of the analytics routes, in registration order. *)
Definition analyticsRoutes : list Route :=
  [route Express.GET [Express.Lit "anomaly"] Controller.getAnomalyAlerts;
   route Express.GET [Express.Lit "anomaly"; Express.Lit "stats"] Controller.getAnomaliesStats;
   route Express.POST [Express.Lit "anomaly"] Controller.createAnomalyAlert;
   route Express.PATCH [Express.Lit "anomaly"; Express.Param "alertId"]
         Controller.updateAnomalyAlert].

(** The first route, in registration order, that handles the method and
    whose path matches, with the parameters it binds. *)
Fixpoint dispatch (routes : list Route) (m : Express.method) (segments : list string)
    : option (Route * list (string * string)) :=
  match routes with
  | [] => None
  | r :: rest =>
      if Express.handles (verb r) m
      then match Express.bind (path r) segments with
           | Some params => Some (r, params)
           | None => dispatch rest m segments
           end
      else dispatch rest m segments
  end.

(** Two route paths that some request path can match both. *)
Fixpoint overlapping (p q : list Express.piece) : bool :=
  match p, q with
  | [], [] => true
  | Express.Lit a :: p', Express.Lit b :: q' => Express.same_text a b && overlapping p' q'
  | _ :: p', _ :: q' => overlapping p' q'
  | _, _ => false
  end.

(** Two routes that some request can reach both. *)
Definition clash (r1 r2 : Route) : bool :=
  existsb (λ m, Express.handles (verb r1) m && Express.handles (verb r2) m)
          [Express.GET; Express.HEAD; Express.POST; Express.PUT; Express.PATCH; Express.DELETE]
  && overlapping (path r1) (path r2).

(** No route clashes with a route registered after it. *)
Fixpoint clash_free (routes : list Route) : bool :=
  match routes with
  | [] => true
  | r :: rest => forallb (λ r', negb (clash r r')) rest && clash_free rest
  end.

(** * Properties *)

(** ** JavaScript primitives *)

Lemma includes_days d : Js.includes DAYS_OF_WEEK d = true ↔ d ∈ DAYS_OF_WEEK.
Proof.
  unfold DAYS_OF_WEEK. split.
  - intros H. simpl in H.
    destruct d; simpl in H; try discriminate.
    repeat (apply orb_prop in H as [H | H];
            [apply String.eqb_eq in H; subst; set_solver |]).
    discriminate.
  - intros H.
    repeat (apply elem_of_cons in H as [-> | H]; [reflexivity |]).
    by apply elem_of_nil in H.
Qed.

Lemma every_days days :
  Js.every (λ day, Js.includes DAYS_OF_WEEK day) days = true
  ↔ Forall (λ d, d ∈ DAYS_OF_WEEK) days.
Proof.
  unfold Js.every. rewrite forallb_forall, Forall_forall.
  split; intros H d Hd.
  - apply includes_days, H. by apply list_elem_of_In.
  - apply includes_days, H. by apply list_elem_of_In.
Qed.

Lemma count_check n items :
  Js.num_strict_ne (Z.of_nat n) (Js.length (Js.Arr items)) = false ↔ n = length items.
Proof.
  simpl. rewrite negb_false_iff, Z.eqb_eq. lia.
Qed.

Lemma count_check_fails n items :
  Js.num_strict_ne (Z.of_nat n) (Js.length (Js.Arr items)) = true ↔ n ≠ length items.
Proof.
  rewrite <- count_check. destruct (Js.num_strict_ne _ _); split; congruence.
Qed.

Lemma nonempty_check items :
  Js.strict_eq_num (Js.length (Js.Arr items)) 0 = false ↔ items ≠ [].
Proof.
  destruct items; simpl.
  - split; [discriminate | congruence].
  - split; [discriminate | reflexivity].
Qed.

(** ** Camera resolution *)

Lemma elem_of_rows_in s ids org (c : Camera.t) :
  c ∈ Camera.rows_in s ids org
  ↔ cameras s !! c.1 = Some c.2 ∧ c.1 ∈ Camera.listed ids ∧ CameraRow.organizationId c.2 = org.
Proof.
  unfold Camera.rows_in. rewrite list_elem_of_filter.
  destruct c as [k r]. rewrite elem_of_map_to_list. simpl. tauto.
Qed.

Lemma table_keys_inj {A} (m : gmap Z A) (P : Z * A → Prop) `{!∀ x, Decision (P x)} :
  NoDup ((filter P (map_to_list m)).*1).
Proof.
  apply NoDup_fmap_2_strong.
  - intros [k1 r1] [k2 r2] H1 H2 Hk. simpl in Hk. subst k2.
    apply list_elem_of_filter in H1 as [_ H1], H2 as [_ H2].
    apply elem_of_map_to_list in H1, H2. congruence.
  - apply NoDup_filter, NoDup_map_to_list.
Qed.

Lemma rows_in_keys s ids org k :
  k ∈ (Camera.rows_in s ids org).*1 ↔ k ∈ Camera.listed ids ∧ owned s org k.
Proof.
  rewrite list_elem_of_fmap. split.
  - intros [[k' r] [-> H]]. apply elem_of_rows_in in H as (H1 & H2 & H3).
    split; [done |]. unfold owned. simpl in *. by rewrite H1, <- H3.
  - intros [H1 H2]. unfold owned in H2.
    destruct (cameras s !! k) as [r |] eqn:Hr; [| discriminate].
    injection H2 as H3. exists (k, r). split; [done |].
    by apply elem_of_rows_in.
Qed.

Lemma length_omap_le {A B} (f : A → option B) l : (length (omap f l) ≤ length l)%nat.
Proof. induction l as [| x l IH]; csimpl; [lia |]. destruct (f x); simpl; lia. Qed.

Lemma length_omap_full {A B} (f : A → option B) l :
  length (omap f l) = length l ↔ Forall (λ x, is_Some (f x)) l.
Proof.
  induction l as [| x l IH]; csimpl.
  - split; [constructor | done].
  - rewrite Forall_cons. pose proof (length_omap_le f l).
    destruct (f x) eqn:E; simpl.
    + rewrite <- IH. split; [intros ?; split; [by eexists | lia] | intros [_ ?]; lia].
    + split; [lia | intros [[? ?] _]; discriminate].
Qed.

(** The count check passes exactly when the array lists identifiers only,
    lists none twice, and each is a camera of the organization. *)
Lemma resolution_passes_iff s org items :
  resolution_passes s org items
  ↔ Forall (λ v, is_Some (Camera.asId v)) items
    ∧ NoDup (Camera.listed (Js.Arr items))
    ∧ Forall (owned s org) (Camera.listed (Js.Arr items)).
Proof.
  unfold resolution_passes.
  set (rows := Camera.rows_in s (Js.Arr items) org).
  set (ids := Camera.listed (Js.Arr items)).
  assert (Hlen : length rows.*1 = length rows) by apply length_fmap.
  assert (Hnd : NoDup rows.*1) by apply table_keys_inj.
  assert (Hle : (length ids ≤ length items)%nat) by apply length_omap_le.
  assert (Hsub : rows.*1 ⊆+ ids).
  { apply NoDup_submseteq; [done |]. intros k Hk. by apply rows_in_keys in Hk as [? _]. }
  split.
  - intros H.
    assert (Hperm : rows.*1 ≡ₚ ids).
    { apply submseteq_length_Permutation; [done | lia]. }
    assert (Hfull : length ids = length items).
    { rewrite <- Hperm. lia. }
    split; [by apply length_omap_full |].
    split; [by rewrite <- Hperm |].
    apply Forall_forall. intros k Hk. rewrite <- Hperm in Hk.
    by apply rows_in_keys in Hk as [_ ?].
  - intros (Hids & Hnodup & Hown).
    assert (Hsup : ids ⊆+ rows.*1).
    { apply NoDup_submseteq; [done |]. intros k Hk.
      apply rows_in_keys. split; [done |].
      rewrite Forall_forall in Hown. by apply Hown. }
    apply submseteq_length in Hsub, Hsup.
    apply length_omap_full in Hids. fold (Camera.listed (Js.Arr items)) in Hids.
    fold ids in Hids. lia.
Qed.

(** ** Running the handlers *)


Lemma missing_required_guard req :
  negb (Js.truthy (Js.get (body req) "title"))
  || negb (Js.truthy (Js.get (body req) "description"))
  || negb (Js.truthy (Js.get (body req) "modelName"))
  || negb (Js.truthy (Js.get (body req) "cameraIds"))
  || negb (Js.truthy (Js.get (body req) "startTime"))
  || negb (Js.truthy (Js.get (body req) "endTime"))
  || negb (Js.truthy (Js.get (body req) "daysOfWeek"))
  = missing_required req.
Proof.
  unfold missing_required, required_fields. simpl.
  repeat (destruct (Js.truthy _); simpl; try reflexivity).
Qed.

Lemma missing_required_true req :
  missing_required req = true
  ↔ ∃ k, k ∈ required_fields ∧ Js.truthy (Js.get (body req) k) = false.
Proof.
  unfold missing_required. rewrite negb_true_iff. split.
  - intros H. apply not_true_iff_false in H.
    rewrite forallb_forall in H.
    destruct (decide (Forall (λ k, Js.truthy (Js.get (body req) k) = true) required_fields))
      as [Hall | Hex].
    + exfalso. apply H. intros k Hk. rewrite Forall_forall in Hall.
      by apply Hall, list_elem_of_In.
    + apply not_Forall_Exists in Hex; [| intros k; apply _].
      apply Exists_exists in Hex as (k & Hk & Hf). exists k. split; [done |].
      by apply not_true_iff_false.
  - intros (k & Hk & Hf). apply not_true_iff_false. intros H.
    rewrite forallb_forall in H. apply list_elem_of_In in Hk.
    specialize (H k Hk). congruence.
Qed.

Lemma missing_required_false req :
  missing_required req = false
  ↔ Forall (λ k, Js.truthy (Js.get (body req) k) = true) required_fields.
Proof.
  unfold missing_required. rewrite negb_false_iff, forallb_forall, Forall_forall.
  split; intros H k Hk; apply H; by apply list_elem_of_In.
Qed.

Lemma addAnomaly_missing req s :
  missing_required req = true →
  handle (addAnomaly req) s
  = ({| statusCode := 400; payload := ErrorBody "Missing required fields" |},
     {| db := s; log := [] |}).
Proof.
  intros H. unfold_handler. rewrite missing_required_guard, H. reflexivity.
Qed.


Lemma addAnomaly_status req s :
  statusCode (response (addAnomaly req) s) = create_status req s.
Proof.
  unfold create_status. unfold_handler. rewrite missing_required_guard.
  destruct (missing_required req); [reflexivity |].
  destruct (negb (Js.isArray _) || _); [reflexivity |].
  destruct (negb (Js.isArray _)); [reflexivity |].
  destruct (negb (Js.every _ _)); [reflexivity |].
  simpl. destruct (Js.num_strict_ne _ _); reflexivity.
Qed.

(** A create that does not end with 201 made no write and at most the
    one camera lookup. *)
Lemma addAnomaly_rejected req s :
  create_status req s ≠ 201 →
  final (addAnomaly req) s = s
  ∧ (create_status req s = 400 → calls (addAnomaly req) s = [])
  ∧ (create_status req s = 404 →
     calls (addAnomaly req) s
     = [(CameraFindAll (Js.get (body req) "cameraIds") (user_organizationId req), s)]).
Proof.
  unfold create_status. unfold_handler. rewrite missing_required_guard.
  destruct (missing_required req); [by intuition |].
  destruct (negb (Js.isArray _) || _); [by intuition |].
  destruct (negb (Js.isArray _)); [by intuition |].
  destruct (negb (Js.every _ _)); [by intuition |].
  simpl. destruct (Js.num_strict_ne _ _); simpl; [by intuition | congruence].
Qed.

(** ** The join relation *)

Lemma elem_of_rebind id ids joins (p : Z * Z) :
  p ∈ Anomaly.rebind id ids joins ↔ (p.1 ≠ id ∧ p ∈ joins) ∨ (p.1 = id ∧ p.2 ∈ ids).
Proof.
  unfold Anomaly.rebind.
  rewrite elem_of_union, elem_of_filter, elem_of_list_to_set, list_elem_of_fmap.
  destruct p as [a c]. simpl. split.
  - intros [? | (c' & [= -> ->] & ?)]; [by left | by right].
  - intros [? | [-> ?]]; [by left |]. right. by exists c.
Qed.

Lemma rebind_own id ids joins c :
  (id, c) ∈ Anomaly.rebind id ids joins ↔ c ∈ ids.
Proof. rewrite elem_of_rebind. simpl. intuition congruence. Qed.

Lemma rebind_other id ids joins id' c :
  id' ≠ id → (id', c) ∈ Anomaly.rebind id ids joins ↔ (id', c) ∈ joins.
Proof. intros Hne. rewrite elem_of_rebind. simpl. intuition congruence. Qed.

Lemma filter_agree {A} (P Q : A → Prop) `{!∀ x, Decision (P x), !∀ x, Decision (Q x)} (l : list A) :
  (∀ x, x ∈ l → P x ↔ Q x) → filter P l = filter Q l.
Proof.
  induction l as [| x l IH]; intros Hagree; [reflexivity |].
  rewrite !filter_cons.
  rewrite IH by (intros y Hy; apply Hagree; by right).
  assert (Hx : P x ↔ Q x) by (apply Hagree; by left).
  destruct (decide (P x)), (decide (Q x)); tauto || reflexivity.
Qed.

(** After a rebind to cameras fetched from the table, the cameras joined
    to the rule are those very cameras. *)
Lemma of_anomaly_rebind (s s' : Store) id (P : Camera.t → Prop) `{!∀ c, Decision (P c)} joins :
  cameras s' = cameras s →
  anomalyCameras s'
  = Anomaly.rebind id (Camera.cameraId <$> filter P (map_to_list (cameras s))) joins →
  Camera.of_anomaly s' id = filter P (map_to_list (cameras s)).
Proof.
  intros Hc Hj. unfold Camera.of_anomaly. rewrite Hc, Hj.
  apply filter_agree. intros [k r] Hkr. simpl.
  rewrite rebind_own, list_elem_of_fmap. split.
  - intros ([k' r'] & Hk & Hin). unfold Camera.cameraId in Hk. simpl in Hk. subst k'.
    apply list_elem_of_filter in Hin as [HP Hin].
    apply elem_of_map_to_list in Hin, Hkr. congruence.
  - intros HP. exists (k, r). split; [reflexivity |].
    by apply list_elem_of_filter.
Qed.

(** ** A create that passes every guard *)

Lemma addAnomaly_created req s :
  create_status req s = 201 →
  let cameraIds := Js.get (body req) "cameraIds" in
  let rows := Camera.rows_in s cameraIds (user_organizationId req) in
  let id := nextAnomalyId s in
  let s1 := created_store req s in
  let s2 := Anomaly.with_joins (Anomaly.rebind id (Camera.cameraId <$> rows)) s1 in
  handle (addAnomaly req) s
  = ({| statusCode := 201;
        payload := CreatedBody (Some {| anomalyId := id;
                                        columns := created_row req s;
                                        Cameras := Anomaly.joined s id Camera.toJSON
                                                   <$> rows |}) |},
     {| db := s2;
        log := [(CameraFindAll cameraIds (user_organizationId req), s);
                (AnomalyCreate id, s1);
                (AnomalySetCameras id (Camera.cameraId <$> rows), s2);
                (AnomalyFindByPk id, s2)] |}).
Proof.
  unfold create_status. unfold_handler. rewrite missing_required_guard.
  destruct (missing_required req); [discriminate |].
  destruct (negb (Js.isArray _) || _); [discriminate |].
  destruct (negb (Js.isArray _)); [discriminate |].
  destruct (negb (Js.every _ _)); [discriminate |].
  simpl. destruct (Js.num_strict_ne _ _); [discriminate |].
  intros _. simpl.
  fold (created_row req s). fold (created_store req s).
  rewrite lookup_insert_eq. simpl. unfold Anomaly.included. simpl.
  erewrite of_anomaly_rebind; [reflexivity | reflexivity | reflexivity].
Qed.

(** Camera resolution, said of the array itself: it passes exactly when
    the array repeats nothing and every element is the identifier of a
    camera of the organization. *)
Lemma resolution_passes_owned s org items :
  resolution_passes s org items ↔ all_owned s org items ∧ NoDup items.
Proof.
  rewrite resolution_passes_iff. unfold all_owned, Camera.listed.
  induction items as [| v items IH]; csimpl.
  - split; intros _; repeat split; constructor.
  - rewrite !Forall_cons, NoDup_cons. split.
    + intros ([[n Hn] Hids] & Hnd & Hown).
      destruct v; try discriminate. simpl in *. injection Hn as ->.
      apply NoDup_cons in Hnd as [Hfresh Hnd].
      apply Forall_cons in Hown as [Hn Hown].
      destruct IH as [IH _]. destruct (IH (conj Hids (conj Hnd Hown))) as [Hall Hnd'].
      split; [split; [by exists n | done] |]. split; [| done].
      intros Hin. apply Hfresh, list_elem_of_omap. by exists (Js.Num n).
    + intros [[(n & -> & Hn) Hall] [Hfresh Hnd]].
      destruct IH as [_ IH]. destruct (IH (conj Hall Hnd)) as (Hids & Hnd' & Hown).
      simpl. split; [split; [by eexists | done] |].
      split; [| by apply Forall_cons].
      apply NoDup_cons. split; [| done].
      intros Hin. apply list_elem_of_omap in Hin as (v & Hv & Hid).
      destruct v; try discriminate. simpl in Hid. injection Hid as ->. done.
Qed.

Lemma create_status_valid req s items days :
  create_fields_valid req items days →
  create_status req s
  = if Js.num_strict_ne
         (Z.of_nat (length (Camera.rows_in s (Js.Arr items) (user_organizationId req))))
         (Js.length (Js.Arr items))
    then 404 else 201.
Proof.
  intros (Hreq & Hids & Hne & Hdays & Hdom). unfold create_status.
  apply missing_required_false in Hreq. rewrite Hreq, Hids, Hdays.
  apply nonempty_check in Hne. rewrite Hne.
  apply every_days in Hdom. simpl Js.items. rewrite Hdom. reflexivity.
Qed.

Lemma create_status_cases req s :
  create_status req s = 400 ∨ create_status req s = 404 ∨ create_status req s = 201.
Proof.
  unfold create_status.
  repeat match goal with |- context [if ?c then _ else _] => destruct c end; auto.
Qed.

(** Once resolution passes, the keys of the resolved cameras are the
    requested identifiers. *)
Lemma resolved_keys s org items n :
  resolution_passes s org items →
  n ∈ Camera.cameraId <$> Camera.rows_in s (Js.Arr items) org ↔ Js.Num n ∈ items.
Proof.
  intros Hres.
  change (Camera.cameraId <$> ?l) with (l.*1).
  rewrite rows_in_keys.
  apply resolution_passes_owned in Hres as [Hall _].
  unfold all_owned in Hall. rewrite Forall_forall in Hall.
  unfold Camera.listed. rewrite list_elem_of_omap. split.
  - intros [(v & Hv & Hid) _]. destruct v; try discriminate.
    simpl in Hid. by injection Hid as ->.
  - intros Hin. split; [by exists (Js.Num n) |].
    destruct (Hall _ Hin) as (m & [= <-] & Hown). done.
Qed.

(** ** Creating a rule *)

(** C1.  A create request that passes validation (the seven required
    fields present, [cameraIds] a non-empty array, [daysOfWeek] an array
    of weekdays of the domain) and whose camera resolution passes is
    answered with status 201, and the cameras of the returned rule are
    exactly the cameras resolved from the requested [cameraIds] within the
    acting organization (each with all its columns and its join row to
    the new rule): the same list, hence the same count (one per
    requested identifier) and the same members; the stored associations
    of the new rule are exactly the requested identifiers.  Passing
    resolution means that every requested identifier is a camera of the
    organization and none is requested twice. *)
Theorem addAnomaly_binds_resolved_cameras (s : Store) (req : Request) (items days : list Js.value) :
  create_fields_valid req items days →
  resolution_passes s (user_organizationId req) items →
  ∃ created,
    response (addAnomaly req) s
    = {| statusCode := 201; payload := CreatedBody (Some created) |}
    ∧ Cameras created
      = Anomaly.joined s (anomalyId created) Camera.toJSON
        <$> Camera.rows_in s (Js.Arr items) (user_organizationId req)
    ∧ length (Cameras created) = length items
    ∧ Camera.of_anomaly (final (addAnomaly req) s) (anomalyId created)
      = Camera.rows_in s (Js.Arr items) (user_organizationId req)
    ∧ (∀ n, (anomalyId created, n) ∈ anomalyCameras (final (addAnomaly req) s)
            ↔ Js.Num n ∈ items)
    ∧ anomalies (final (addAnomaly req) s) !! anomalyId created = Some (columns created)
    ∧ AnomalyRow.organizationId (columns created) = user_organizationId req
    ∧ all_owned s (user_organizationId req) items
    ∧ NoDup items.
Proof.
  intros Hvalid Hres.
  assert (Hst : create_status req s = 201).
  { rewrite (create_status_valid _ _ _ _ Hvalid).
    apply count_check in Hres. by rewrite Hres. }
  pose proof (addAnomaly_created req s Hst) as Hrun. simpl in Hrun.
  destruct Hvalid as (_ & Hids & _).
  unfold response, final. rewrite Hrun, Hids. simpl.
  eexists. split; [reflexivity |]. simpl.
  split; [reflexivity |].
  split; [by rewrite length_fmap |].
  split.
  { unfold Camera.rows_in.
    apply (of_anomaly_rebind s _ _ _ (anomalyCameras s)); reflexivity. }
  split.
  { intros n. rewrite rebind_own. by apply resolved_keys. }
  split; [apply lookup_insert_eq |]. split; [reflexivity |].
  by apply resolution_passes_owned.
Qed.


(** A create whose camera resolution fails. *)
Lemma addAnomaly_unresolved s req items :
  Js.get (body req) "cameraIds" = Js.Arr items →
  ¬ resolution_passes s (user_organizationId req) items →
  final (addAnomaly req) s = s
  ∧ (statusCode (response (addAnomaly req) s) = 400
     ∨ statusCode (response (addAnomaly req) s) = 404)
  ∧ (∀ days, create_fields_valid req items days →
       response (addAnomaly req) s
       = {| statusCode := 404;
            payload := ErrorBody "One or more cameras not found or access denied" |}
       ∧ calls (addAnomaly req) s
         = [(CameraFindAll (Js.Arr items) (user_organizationId req), s)]).
Proof.
  intros Hids Hres.
  assert (Hst : create_status req s ≠ 201).
  { unfold create_status. rewrite Hids.
    repeat match goal with |- context [if ?c then _ else _] => destruct c eqn:? end;
      try discriminate.
    exfalso. apply Hres. by apply count_check. }
  destruct (addAnomaly_rejected req s Hst) as (Hfinal & _ & Hcalls).
  split; [done |]. split.
  { rewrite addAnomaly_status. destruct (create_status_cases req s) as [? | [? | ?]]; auto.
    contradiction. }
  intros days Hvalid.
  assert (Hst' : create_status req s = 404).
  { rewrite (create_status_valid _ _ _ _ Hvalid).
    destruct (Js.num_strict_ne _ _) eqn:E; [reflexivity |].
    exfalso. apply Hres. by apply count_check. }
  split; [| by rewrite Hcalls, Hids].
  clear Hcalls Hst Hfinal. revert Hst'.
  unfold create_status. unfold_handler. rewrite missing_required_guard.
  destruct (missing_required req); [discriminate |].
  destruct (negb (Js.isArray _) || _); [discriminate |].
  destruct (negb (Js.isArray _)); [discriminate |].
  destruct (negb (Js.every _ _)); [discriminate |].
  simpl. destruct (Js.num_strict_ne _ _); [reflexivity | discriminate].
Qed.


Lemma get_with_field_ne k k' v req :
  String.eqb k k' = false →
  Js.get (body (with_field k v req)) k' = Js.get (body req) k'.
Proof. intros H. simpl. by rewrite H. Qed.

Lemma forallb_agree {A} (f g : A → bool) (l : list A) :
  (∀ x, x ∈ l → f x = g x) → forallb f l = forallb g l.
Proof.
  induction l as [| x l IH]; intros Hfg; [reflexivity |]. simpl.
  rewrite Hfg by left. rewrite IH; [reflexivity |].
  intros y Hy. apply Hfg. by right.
Qed.

Lemma missing_required_with_field k v req :
  k ∉ required_fields →
  missing_required (with_field k v req) = missing_required req.
Proof.
  intros Hk. unfold missing_required. f_equal.
  apply forallb_agree. intros k' Hk'.
  rewrite get_with_field_ne; [reflexivity |].
  apply String.eqb_neq. intros ->. done.
Qed.

(** C6.  A create request in which any of title, description, modelName,
    cameraIds, startTime, endTime or daysOfWeek is missing (absent, or
    otherwise falsy) is answered 400 "Missing required fields" whatever
    the rest of the request holds, so before any array, weekday or
    ownership check, with no storage call made and the store untouched
    (an absent property reads as [undefined], which is falsy).
    Criticality is not required: setting it to any value, [undefined]
    included, changes neither the status of a create nor the storage calls
    it makes. *)
Theorem addAnomaly_required_fields_first (s : Store) (req : Request) :
  (∀ k, k ∈ required_fields →
        Js.truthy (Js.get (body req) k) = false →
        response (addAnomaly req) s
        = {| statusCode := 400; payload := ErrorBody "Missing required fields" |}
        ∧ calls (addAnomaly req) s = []
        ∧ final (addAnomaly req) s = s)
  ∧ (∀ v, statusCode (response (addAnomaly (with_field "criticality" v req)) s)
          = statusCode (response (addAnomaly req) s)
          ∧ (calls (addAnomaly (with_field "criticality" v req)) s).*1
            = (calls (addAnomaly req) s).*1).
Proof.
  assert (Hcrit : "criticality" ∉ required_fields).
  { unfold required_fields. intros H.
    repeat (apply elem_of_cons in H as [H | H]; [discriminate |]).
    by apply elem_of_nil in H. }
  split.
  - intros k Hk Hfalsy.
    assert (Hmiss : missing_required req = true).
    { apply missing_required_true. eauto. }
    unfold response, calls, final. by rewrite (addAnomaly_missing _ _ Hmiss).
  - intros v.
    assert (Hst : create_status (with_field "criticality" v req) s = create_status req s).
    { unfold create_status. by rewrite missing_required_with_field. }
    split; [by rewrite !addAnomaly_status |].
    destruct (create_status_cases req s) as [E | [E | E]].
    + destruct (addAnomaly_rejected req s ltac:(congruence)) as (_ & H1 & _).
      destruct (addAnomaly_rejected (with_field "criticality" v req) s ltac:(congruence))
        as (_ & H2 & _).
      rewrite H1, H2 by congruence. reflexivity.
    + destruct (addAnomaly_rejected req s ltac:(congruence)) as (_ & _ & H1).
      destruct (addAnomaly_rejected (with_field "criticality" v req) s ltac:(congruence))
        as (_ & _ & H2).
      rewrite H1, H2 by congruence. reflexivity.
    + unfold calls.
      rewrite (addAnomaly_created req s E).
      rewrite (addAnomaly_created (with_field "criticality" v req) s); [| congruence].
      reflexivity.
Qed.

Lemma create_status_swap_times req s :
  create_status (swap_times req) s = create_status req s.
Proof.
  unfold create_status.
  assert (Hmiss : missing_required (swap_times req) = missing_required req).
  { unfold missing_required, required_fields. simpl.
    repeat (destruct (Js.truthy _); simpl; try reflexivity). }
  rewrite Hmiss. reflexivity.
Qed.

(** C7.  A create request whose [daysOfWeek] array holds a value outside
    the weekday domain is answered with status 400, no storage call is
    made (no camera lookup, no rule stored) and the store is untouched;
    when the earlier guards pass (required fields present, [cameraIds] a
    non-empty array) the answer is 400 "Invalid day values".  The order of
    [startTime] and [endTime] is not looked at: exchanging the two never
    changes the status of a create. *)
Theorem addAnomaly_weekday_domain (s : Store) (req : Request) :
  (∀ days d,
     Js.get (body req) "daysOfWeek" = Js.Arr days →
     d ∈ days →
     d ∉ DAYS_OF_WEEK →
     statusCode (response (addAnomaly req) s) = 400
     ∧ calls (addAnomaly req) s = []
     ∧ final (addAnomaly req) s = s
     ∧ (∀ items,
          Forall (λ k, Js.truthy (Js.get (body req) k) = true) required_fields →
          Js.get (body req) "cameraIds" = Js.Arr items →
          items ≠ [] →
          payload (response (addAnomaly req) s) = ErrorBody "Invalid day values"))
  ∧ statusCode (response (addAnomaly (swap_times req)) s)
    = statusCode (response (addAnomaly req) s).
Proof.
  split; [| by rewrite !addAnomaly_status, create_status_swap_times].
  intros days d Hdays Hin Hout.
  assert (Hevery : Js.every (λ day, Js.includes DAYS_OF_WEEK day) days = false).
  { apply not_true_iff_false. intros H. apply every_days in H.
    rewrite Forall_forall in H. by apply Hout, H. }
  assert (Hst : create_status req s = 400).
  { unfold create_status. rewrite Hdays. simpl Js.items. rewrite Hevery. simpl.
    repeat match goal with |- context [if ?c then _ else _] => destruct c end; reflexivity. }
  destruct (addAnomaly_rejected req s ltac:(congruence)) as (Hfinal & Hcalls & _).
  split; [by rewrite addAnomaly_status |].
  split; [by apply Hcalls |]. split; [done |].
  intros items Hreq Hids Hne.
  apply missing_required_false in Hreq. apply nonempty_check in Hne.
  unfold_handler. rewrite missing_required_guard, Hreq, Hids, Hne, Hdays.
  cbn [Js.isArray Js.items negb orb]. rewrite Hevery. reflexivity.
Qed.

(** ** Updating a rule *)

Lemma owned_by_Some s id org r :
  anomalies s !! id = Some r →
  AnomalyRow.organizationId r = org →
  Anomaly.owned_by s id org = Some (id, r).
Proof.
  intros Hr Horg. unfold Anomaly.owned_by. rewrite Hr.
  destruct (decide _); [reflexivity | contradiction].
Qed.

Lemma owned_by_inv s id org a :
  Anomaly.owned_by s id org = Some a →
  a.1 = id ∧ anomalies s !! id = Some a.2 ∧ AnomalyRow.organizationId a.2 = org.
Proof.
  unfold Anomaly.owned_by. destruct (anomalies s !! id) as [r |]; [| discriminate].
  destruct (decide _); [| discriminate]. intros [= <-]. auto.
Qed.

Lemma owned_by_None s id org :
  Anomaly.owned_by s id org = None
  ↔ ∀ r, anomalies s !! id = Some r → AnomalyRow.organizationId r ≠ org.
Proof.
  unfold Anomaly.owned_by. destruct (anomalies s !! id) as [r |].
  - destruct (decide _) as [Heq | Hne]; split.
    + discriminate.
    + intros H. by destruct (H r eq_refl).
    + intros _ r' [= <-]. done.
    + reflexivity.
  - split; [intros _ r; discriminate | reflexivity].
Qed.

Lemma updateAnomaly_not_found req s :
  Anomaly.owned_by s (params_anomalyId req) (user_organizationId req) = None →
  handle (updateAnomaly req) s
  = ({| statusCode := 404;
        payload := MessageBody "Anomaly not found or does not belong to your organization" |},
     {| db := s;
        log := [(AnomalyFindOne (params_anomalyId req) (user_organizationId req), s)] |}).
Proof. intros H. unfold_handler. simpl. rewrite H. reflexivity. Qed.

Lemma updateAnomaly_cameras_rejected req s a :
  Anomaly.owned_by s (params_anomalyId req) (user_organizationId req) = Some a →
  ¬ camera_guard_passes req s →
  handle (updateAnomaly req) s
  = ({| statusCode := 404;
        payload := MessageBody "One or more cameras not found or access denied" |},
     {| db := s;
        log := [(AnomalyFindOne (params_anomalyId req) (user_organizationId req), s);
                (CameraFindAll (Js.get (body req) "cameraIds") (user_organizationId req), s)] |}).
Proof.
  intros H Hguard. unfold camera_guard_passes in Hguard.
  unfold_handler. simpl. rewrite H.
  destruct (Js.truthy _); [| exfalso; apply Hguard; discriminate].
  simpl. destruct (Js.num_strict_ne _ _); [reflexivity |].
  exfalso. by apply Hguard.
Qed.

Lemma updateAnomaly_rebound req s r :
  let id := params_anomalyId req in
  let cameraIds := Js.get (body req) "cameraIds" in
  let rows := Camera.rows_in s cameraIds (user_organizationId req) in
  let s1 := Anomaly.with_joins (Anomaly.rebind id (Camera.cameraId <$> rows)) s in
  let s2 := Anomaly.with_anomalies (insert id (merged_row req r)) s1 in
  Anomaly.owned_by s id (user_organizationId req) = Some (id, r) →
  Js.truthy cameraIds = true →
  Js.num_strict_ne (Z.of_nat (length rows)) (Js.length cameraIds) = false →
  handle (updateAnomaly req) s
  = ({| statusCode := 200;
        payload := UpdatedBody "Anomaly updated successfully"
                     (Some {| anomalyId := id;
                              columns := merged_row req r;
                              Cameras := Anomaly.joined s id Camera.toJSON <$> rows |}) |},
     {| db := s2;
        log := [(AnomalyFindOne id (user_organizationId req), s);
                (CameraFindAll cameraIds (user_organizationId req), s);
                (AnomalySetCameras id (Camera.cameraId <$> rows), s1);
                (AnomalySave id, s2);
                (AnomalyFindByPk id, s2)] |}).
Proof.
  intros id cameraIds rows s1 s2 H Htruthy Hcount.
  unfold_handler. simpl. fold id. rewrite H. fold cameraIds. rewrite Htruthy. simpl.
  fold rows. rewrite Hcount. simpl.
  fold (merged_row req r). rewrite lookup_insert_eq. simpl.
  unfold Anomaly.included. simpl.
  erewrite of_anomaly_rebind; [reflexivity | reflexivity | reflexivity].
Qed.

Lemma updateAnomaly_fields_only req s r :
  let id := params_anomalyId req in
  let s2 := Anomaly.with_anomalies (insert id (merged_row req r)) s in
  Anomaly.owned_by s id (user_organizationId req) = Some (id, r) →
  Js.truthy (Js.get (body req) "cameraIds") = false →
  handle (updateAnomaly req) s
  = ({| statusCode := 200;
        payload := UpdatedBody "Anomaly updated successfully"
                     (Some {| anomalyId := id;
                              columns := merged_row req r;
                              Cameras := Anomaly.joined s id Camera.toJSON
                                         <$> Camera.of_anomaly s id |}) |},
     {| db := s2;
        log := [(AnomalyFindOne id (user_organizationId req), s);
                (AnomalySave id, s2);
                (AnomalyFindByPk id, s2)] |}).
Proof.
  intros id s2 H Hfalsy.
  unfold_handler. simpl. fold id. rewrite H, Hfalsy. simpl.
  fold (merged_row req r). rewrite lookup_insert_eq. reflexivity.
Qed.

(** The four ways an update can go. *)
Lemma updateAnomaly_cases req s :
  let id := params_anomalyId req in
  let org := user_organizationId req in
  (Anomaly.owned_by s id org = None
   ∧ statusCode (response (updateAnomaly req) s) = 404
   ∧ final (updateAnomaly req) s = s)
  ∨ (∃ r, Anomaly.owned_by s id org = Some (id, r)
          ∧ ¬ camera_guard_passes req s
          ∧ statusCode (response (updateAnomaly req) s) = 404
          ∧ final (updateAnomaly req) s = s)
  ∨ (∃ r, Anomaly.owned_by s id org = Some (id, r)
          ∧ camera_guard_passes req s
          ∧ statusCode (response (updateAnomaly req) s) = 200
          ∧ anomalies (final (updateAnomaly req) s) = <[id := merged_row req r]> (anomalies s)).
Proof.
  intros id org.
  destruct (Anomaly.owned_by s id org) as [[id' r] |] eqn:Hown.
  - pose proof (owned_by_inv _ _ _ _ Hown) as (Hid & _). simpl in Hid. subst id'.
    destruct (Js.truthy (Js.get (body req) "cameraIds")) eqn:Htruthy.
    + destruct (Js.num_strict_ne
                  (Z.of_nat (length (Camera.rows_in s (Js.get (body req) "cameraIds") org)))
                  (Js.length (Js.get (body req) "cameraIds"))) eqn:Hcount.
      * right. left. exists r.
        assert (Hguard : ¬ camera_guard_passes req s).
        { intros Hg. specialize (Hg Htruthy). fold org in Hg. congruence. }
        unfold response, final.
        rewrite (updateAnomaly_cameras_rejected _ _ _ Hown Hguard). auto.
      * right. right. exists r. unfold response, final.
        rewrite (updateAnomaly_rebound _ _ _ Hown Htruthy Hcount).
        split; [done |]. split; [by intros _ |]. auto.
    + right. right. exists r. unfold response, final.
      rewrite (updateAnomaly_fields_only _ _ _ Hown Htruthy).
      split; [done |]. split; [intros ?; congruence |]. auto.
  - left. unfold response, final. rewrite (updateAnomaly_not_found _ _ Hown). auto.
Qed.

(** C3, as the code has it.  An update of an existing rule of the acting
    organization that supplies a [cameraIds] array without repeated
    elements, each the identifier of a camera of the organization, is
    answered 200 and leaves the rule associated with exactly the supplied
    cameras: a camera is associated with the rule afterwards if and only
    if its identifier was supplied (earlier associations outside the new
    set are gone), every camera appears once, the cameras joined to the
    rule are the resolved ones, and the associations of every other rule
    are as before. *)
Theorem updateAnomaly_replaces_cameras (s : Store) (req : Request) (r : AnomalyRow.t)
    (items : list Js.value) :
  let id := params_anomalyId req in
  let org := user_organizationId req in
  let s' := final (updateAnomaly req) s in
  anomalies s !! id = Some r →
  AnomalyRow.organizationId r = org →
  Js.get (body req) "cameraIds" = Js.Arr items →
  all_owned s org items →
  NoDup items →
  statusCode (response (updateAnomaly req) s) = 200
  ∧ (∀ n, (id, n) ∈ anomalyCameras s' ↔ Js.Num n ∈ items)
  ∧ (∀ id' n, id' ≠ id → (id', n) ∈ anomalyCameras s' ↔ (id', n) ∈ anomalyCameras s)
  ∧ Camera.of_anomaly s' id = Camera.rows_in s (Js.Arr items) org
  ∧ NoDup (Camera.cameraId <$> Camera.of_anomaly s' id)
  ∧ length (Camera.of_anomaly s' id) = length items.
Proof.
  intros id org s' Hr Horg Hids Hall Hnd.
  assert (Hres : resolution_passes s org items) by by apply resolution_passes_owned.
  pose proof (owned_by_Some _ _ _ _ Hr Horg) as Hown.
  assert (Hcount : Js.num_strict_ne
                     (Z.of_nat (length (Camera.rows_in s (Js.get (body req) "cameraIds") org)))
                     (Js.length (Js.get (body req) "cameraIds")) = false).
  { rewrite Hids. by apply count_check. }
  assert (Htruthy : Js.truthy (Js.get (body req) "cameraIds") = true) by by rewrite Hids.
  pose proof (updateAnomaly_rebound req s r Hown Htruthy Hcount) as Hrun.
  simpl in Hrun. rewrite Hids in Hrun.
  assert (Hjoined : Camera.of_anomaly s' id = Camera.rows_in s (Js.Arr items) org).
  { unfold s', final. fold id org in Hrun. rewrite Hrun. simpl.
    unfold Camera.rows_in.
    apply (of_anomaly_rebind s _ _ _ (anomalyCameras s)); reflexivity. }
  unfold s', response, final. fold id org in Hrun. rewrite Hrun. simpl.
  split; [reflexivity |].
  split; [intros n; rewrite rebind_own; by apply resolved_keys |].
  split; [intros id' n Hne; by apply rebind_other |].
  unfold s', final in Hjoined. rewrite Hrun in Hjoined. simpl in Hjoined.
  rewrite Hjoined.
  split; [reflexivity |]. split; [apply table_keys_inj | exact Hres].
Qed.




Lemma updateAnomaly_ignores_field k v req :
  k ∈ ["startTime"; "endTime"; "daysOfWeek"] →
  updateAnomaly (with_field k v req) = updateAnomaly req.
Proof.
  intros Hk.
  repeat (apply elem_of_cons in Hk as [-> | Hk]; [reflexivity |]).
  by apply elem_of_nil in Hk.
Qed.

(** C9.  Whatever an update request holds, every stored rule has after the
    call the startTime, endTime and daysOfWeek it had before; and the
    handler does not read those three body properties at all: giving any
    of them any value leaves the response, the final store and the storage
    calls of the update the same. *)
Theorem updateAnomaly_keeps_schedule (s : Store) (req : Request) :
  (∀ id r,
     anomalies s !! id = Some r →
     ∃ r',
       anomalies (final (updateAnomaly req) s) !! id = Some r'
       ∧ AnomalyRow.startTime r' = AnomalyRow.startTime r
       ∧ AnomalyRow.endTime r' = AnomalyRow.endTime r
       ∧ AnomalyRow.daysOfWeek r' = AnomalyRow.daysOfWeek r)
  ∧ (∀ k v,
       k ∈ ["startTime"; "endTime"; "daysOfWeek"] →
       handle (updateAnomaly (with_field k v req)) s = handle (updateAnomaly req) s).
Proof.
  split; [| intros k v Hk; by rewrite updateAnomaly_ignores_field].
  intros id r Hr.
  destruct (updateAnomaly_cases req s)
    as [(_ & _ & Hfinal) | [(r0 & _ & _ & _ & Hfinal)
                           | (r0 & Hsome & _ & _ & Hfinal)]].
  - exists r. by rewrite Hfinal.
  - exists r. by rewrite Hfinal.
  - rewrite Hfinal. apply owned_by_inv in Hsome as (_ & Hr0 & _). simpl in Hr0.
    destruct (decide (params_anomalyId req = id)) as [<- | Hne].
    + assert (r0 = r) as -> by congruence.
      exists (merged_row req r). by rewrite lookup_insert_eq.
    + exists r. by rewrite lookup_insert_ne.
Qed.

Lemma repeated_not_NoDup {A} (x : A) (l1 l2 l3 : list A) :
  ¬ NoDup (l1 ++ x :: l2 ++ x :: l3)%list.
Proof.
  intros H. apply NoDup_app in H as (_ & _ & H).
  apply NoDup_cons in H as [H _]. apply H.
  apply elem_of_app. right. left.
Qed.

Lemma create_status_invalid req s items :
  Js.get (body req) "cameraIds" = Js.Arr items →
  (∀ days, ¬ create_fields_valid req items days) →
  create_status req s = 400.
Proof.
  intros Hids Hinvalid. unfold create_status. rewrite Hids.
  destruct (missing_required req) eqn:Hmiss; [reflexivity |].
  simpl Js.isArray. simpl negb. rewrite orb_false_l.
  destruct (Js.strict_eq_num _ _) eqn:Hne; [reflexivity |].
  destruct (Js.get (body req) "daysOfWeek") as [| | | | | days |] eqn:Hdays; try reflexivity.
  simpl Js.isArray. simpl negb. simpl Js.items.
  destruct (Js.every _ days) eqn:Hevery; [| reflexivity].
  exfalso. apply (Hinvalid days).
  split; [by apply missing_required_false |].
  split; [done |]. split; [by apply nonempty_check |].
  split; [done | by apply every_days].
Qed.

(** C10, as the code has it.  When the [cameraIds] array of a request
    lists some identifier twice, the count check of camera resolution
    fails whatever the store holds, also when every listed identifier is
    a camera of the acting organization.  An update request is then
    answered 404 and changes nothing (404 "One or more cameras not found
    or access denied" when the rule exists and is the organization's).  A
    create request changes nothing either and is answered 404 with that
    message when it passes field validation, 400 when it does not. *)
Theorem duplicate_cameraIds_rejected (s : Store) (req : Request)
    (l1 l2 l3 : list Js.value) (n : Z) :
  let items := (l1 ++ Js.Num n :: l2 ++ Js.Num n :: l3)%list in
  Js.get (body req) "cameraIds" = Js.Arr items →
  ¬ resolution_passes s (user_organizationId req) items
  ∧ statusCode (response (updateAnomaly req) s) = 404
  ∧ final (updateAnomaly req) s = s
  ∧ (∀ r, anomalies s !! params_anomalyId req = Some r →
          AnomalyRow.organizationId r = user_organizationId req →
          payload (response (updateAnomaly req) s)
          = MessageBody "One or more cameras not found or access denied")
  ∧ final (addAnomaly req) s = s
  ∧ (statusCode (response (addAnomaly req) s) = 400
     ∨ statusCode (response (addAnomaly req) s) = 404)
  ∧ (∀ days, create_fields_valid req items days →
       response (addAnomaly req) s
       = {| statusCode := 404;
            payload := ErrorBody "One or more cameras not found or access denied" |})
  ∧ ((∀ days, ¬ create_fields_valid req items days) →
     statusCode (response (addAnomaly req) s) = 400
     ∧ calls (addAnomaly req) s = []).
Proof.
  intros items Hids.
  assert (Hres : ¬ resolution_passes s (user_organizationId req) items).
  { intros H. apply resolution_passes_owned in H as [_ H].
    by apply repeated_not_NoDup in H. }
  assert (Hguard : ¬ camera_guard_passes req s).
  { intros Hg. unfold camera_guard_passes in Hg. rewrite Hids in Hg.
    apply Hres. apply count_check. by apply Hg. }
  split; [done |].
  destruct (addAnomaly_unresolved s req items Hids Hres) as (Hfinal & Hst & Hvalid).
  assert (Hupd : statusCode (response (updateAnomaly req) s) = 404
                 ∧ final (updateAnomaly req) s = s).
  { destruct (updateAnomaly_cases req s)
      as [(_ & ? & ?) | [(r0 & _ & _ & ? & ?) | (r0 & _ & ? & _)]]; auto.
    contradiction. }
  destruct Hupd as [Hupd1 Hupd2].
  split; [done |]. split; [done |]. split.
  { intros r Hr Horg. pose proof (owned_by_Some _ _ _ _ Hr Horg) as Hown.
    unfold response. by rewrite (updateAnomaly_cameras_rejected _ _ _ Hown Hguard). }
  split; [done |]. split; [done |]. split.
  { intros days Hv. by destruct (Hvalid days Hv). }
  intros Hinvalid.
  pose proof (create_status_invalid req s items Hids Hinvalid) as H400.
  split; [by rewrite addAnomaly_status |].
  by apply (addAnomaly_rejected req s ltac:(congruence)).
Qed.

(** ** Deleting a rule *)

Lemma deleteAnomaly_not_found req s :
  Anomaly.owned_by s (params_anomalyId req) (user_organizationId req) = None →
  handle (deleteAnomaly req) s
  = ({| statusCode := 404;
        payload := MessageBody "Anomaly not found or does not belong to your organization" |},
     {| db := s;
        log := [(AnomalyFindOne (params_anomalyId req) (user_organizationId req), s)] |}).
Proof. intros H. unfold_handler. simpl. rewrite H. reflexivity. Qed.

Lemma deleteAnomaly_deleted req s r :
  let id := params_anomalyId req in
  let s1 := Anomaly.with_joins (Anomaly.rebind id []) s in
  let s2 := Anomaly.with_anomalies (delete id) s1 in
  Anomaly.owned_by s id (user_organizationId req) = Some (id, r) →
  handle (deleteAnomaly req) s
  = ({| statusCode := 200; payload := MessageBody "Anomaly deleted successfully" |},
     {| db := s2;
        log := [(AnomalyFindOne id (user_organizationId req), s);
                (AnomalySetCameras id [], s1);
                (AnomalyDestroy id, s2)] |}).
Proof. intros id s1 s2 H. unfold_handler. simpl. fold id. rewrite H. reflexivity. Qed.

Lemma rebind_nil_own id joins c : (id, c) ∉ Anomaly.rebind id [] joins.
Proof. rewrite rebind_own. apply not_elem_of_nil. Qed.

(** C5.  Deleting a rule of the acting organization makes three storage
    calls in this order: the lookup, the removal of all of the rule's
    camera associations, the destruction of the rule row.  After the
    second the rule is still stored and no association of it is left;
    after the third the rule is gone and still none is left.  At no point
    of the call does an association stand without its rule (among the
    rules that existed before), no camera's rules include the deleted
    rule afterwards, and every other rule and association is as before.
    Deleting a rule that is absent or belongs to another organization is
    answered 404 and changes nothing. *)
Theorem deleteAnomaly_unbinds_then_destroys (s : Store) (req : Request) :
  let id := params_anomalyId req in
  let org := user_organizationId req in
  (∀ r,
     anomalies s !! id = Some r →
     AnomalyRow.organizationId r = org →
     ∃ s1 s2,
       response (deleteAnomaly req) s
       = {| statusCode := 200; payload := MessageBody "Anomaly deleted successfully" |}
       ∧ calls (deleteAnomaly req) s
         = [(AnomalyFindOne id org, s); (AnomalySetCameras id [], s1); (AnomalyDestroy id, s2)]
       ∧ final (deleteAnomaly req) s = s2
       ∧ anomalies s1 !! id = Some r
       ∧ (∀ c, (id, c) ∉ anomalyCameras s1)
       ∧ anomalies s2 !! id = None
       ∧ (∀ c, (id, c) ∉ anomalyCameras s2)
       ∧ Forall (λ cs : Call * Store, no_dangling s cs.2) (calls (deleteAnomaly req) s)
       ∧ (∀ c a, a ∈ rules_of_camera s2 c → a.1 ≠ id)
       ∧ (∀ id', id' ≠ id →
                 anomalies s2 !! id' = anomalies s !! id'
                 ∧ ∀ c, (id', c) ∈ anomalyCameras s2 ↔ (id', c) ∈ anomalyCameras s))
  ∧ ((∀ r, anomalies s !! id = Some r → AnomalyRow.organizationId r ≠ org) →
     statusCode (response (deleteAnomaly req) s) = 404
     ∧ final (deleteAnomaly req) s = s).
Proof.
  intros id org. split.
  - intros r Hr Horg.
    pose proof (owned_by_Some _ _ _ _ Hr Horg) as Hown.
    pose proof (deleteAnomaly_deleted req s r Hown) as Hrun. simpl in Hrun.
    fold id org in Hrun.
    unfold response, calls, final. rewrite Hrun. simpl.
    eexists _, _. split; [reflexivity |]. split; [reflexivity |]. split; [reflexivity |].
    simpl. split; [done |].
    split; [intros c; apply rebind_nil_own |].
    split; [apply lookup_delete_eq |].
    split; [intros c; apply rebind_nil_own |].
    split.
    { repeat apply Forall_cons_2; [| | | constructor]; intros [a c] Hin Hsome; simpl in *.
      - done.
      - done.
      - apply elem_of_rebind in Hin as [[Hne _] | [_ Hnil]]; simpl in *.
        + by rewrite lookup_delete_ne.
        + by apply elem_of_nil in Hnil. }
    split.
    { intros c [k ra] Hin. unfold rules_of_camera in Hin.
      apply list_elem_of_filter in Hin as [_ Hin].
      apply elem_of_map_to_list in Hin. simpl in *.
      intros ->. by rewrite lookup_delete_eq in Hin. }
    intros id' Hne. split; [by apply lookup_delete_ne |].
    intros c. by apply rebind_other.
  - intros Hnone. apply owned_by_None in Hnone.
    unfold response, final. by rewrite (deleteAnomaly_not_found _ _ Hnone).
Qed.

(** ** Listing rules *)

Lemma select_public c :
  Camera.select ["cameraId"; "location"; "ipAddress"; "cameraType"] c = public_view c.
Proof. reflexivity. Qed.


(** * Worked scenarios on the example site *)

(** Cameras 1 and 2 of organization 7: created, two cameras bound. *)
Lemma addAnomaly_binds_resolved_cameras_witness :
  create_fields_valid (request (titled [Js.Num 1; Js.Num 2]))
                      [Js.Num 1; Js.Num 2] [Js.Str "Mon"; Js.Str "Fri"]
  ∧ resolution_passes site 7 [Js.Num 1; Js.Num 2]
  ∧ ∃ created,
      response (addAnomaly (request (titled [Js.Num 1; Js.Num 2]))) site
      = {| statusCode := 201; payload := CreatedBody (Some created) |}
      ∧ length (Cameras created) = 2%nat
      ∧ ∀ n, (anomalyId created, n) ∈ anomalyCameras
                (final (addAnomaly (request (titled [Js.Num 1; Js.Num 2]))) site)
             ↔ Js.Num n ∈ [Js.Num 1; Js.Num 2].
Proof.
  assert (Hvalid : create_fields_valid (request (titled [Js.Num 1; Js.Num 2]))
                     [Js.Num 1; Js.Num 2] [Js.Str "Mon"; Js.Str "Fri"]).
  { split; [by_listing |]. split; [reflexivity |]. split; [discriminate |].
    split; [reflexivity | by_listing]. }
  assert (Hres : resolution_passes site 7 [Js.Num 1; Js.Num 2]) by reflexivity.
  split; [exact Hvalid |]. split; [exact Hres |].
  destruct (addAnomaly_binds_resolved_cameras site _ _ _ Hvalid Hres)
    as (created & Hresp & _ & Hlen & _ & Hjoin & _).
  exists created. split; [exact Hresp |]. split; [exact Hlen | exact Hjoin].
Defined.



(** No title (and a foreign camera besides): 400 before anything else;
    and the complete body, which has no criticality, is created. *)
Lemma addAnomaly_required_fields_first_witness :
  "title" ∈ required_fields
  ∧ Js.truthy (Js.get (body (request (untitled [Js.Num 99]))) "title") = false
  ∧ response (addAnomaly (request (untitled [Js.Num 99]))) site
    = {| statusCode := 400; payload := ErrorBody "Missing required fields" |}
  ∧ calls (addAnomaly (request (untitled [Js.Num 99]))) site = []
  ∧ statusCode (response (addAnomaly
                  (with_field "criticality" Js.Undefined (request (titled [Js.Num 1]))))
                  site) = 201.
Proof.
  assert (Hk : "title" ∈ required_fields) by by_listing.
  split; [exact Hk |]. split; [reflexivity |].
  destruct (proj1 (addAnomaly_required_fields_first site (request (untitled [Js.Num 99])))
              "title" Hk eq_refl) as (Hresp & Hcalls & _).
  split; [exact Hresp |]. split; [exact Hcalls |].
  reflexivity.
Defined.

(** A weekday outside the domain; and an overnight window (start after
    end) is accepted. *)
Lemma addAnomaly_weekday_domain_witness :
  Js.get (body (request (("daysOfWeek", Js.Arr [Js.Str "Mon"; Js.Str "Someday"])
                           :: titled [Js.Num 1]))) "daysOfWeek"
  = Js.Arr [Js.Str "Mon"; Js.Str "Someday"]
  ∧ Js.Str "Someday" ∈ [Js.Str "Mon"; Js.Str "Someday"]
  ∧ (Js.Str "Someday" ∉ DAYS_OF_WEEK)
  ∧ statusCode (response (addAnomaly
                  (request (("daysOfWeek", Js.Arr [Js.Str "Mon"; Js.Str "Someday"])
                              :: titled [Js.Num 1]))) site) = 400
  ∧ calls (addAnomaly
             (request (("daysOfWeek", Js.Arr [Js.Str "Mon"; Js.Str "Someday"])
                         :: titled [Js.Num 1]))) site = []
  ∧ statusCode (response (addAnomaly (request (titled [Js.Num 1]))) site) = 201.
Proof.
  assert (Hin : Js.Str "Someday" ∈ [Js.Str "Mon"; Js.Str "Someday"]) by by_listing.
  assert (Hout : Js.Str "Someday" ∉ DAYS_OF_WEEK).
  { unfold DAYS_OF_WEEK. intros H.
    repeat (apply elem_of_cons in H as [H | H]; [discriminate |]).
    by apply elem_of_nil in H. }
  split; [reflexivity |]. split; [exact Hin |]. split; [exact Hout |].
  destruct (proj1 (addAnomaly_weekday_domain site
                     (request (("daysOfWeek", Js.Arr [Js.Str "Mon"; Js.Str "Someday"])
                                 :: titled [Js.Num 1])))
              _ _ eq_refl Hin Hout) as (Hst & Hcalls & _).
  split; [exact Hst |]. split; [exact Hcalls |]. reflexivity.
Defined.


(** Rule 5 watches camera 2; an update to camera 1 alone leaves it
    watching camera 1 and nothing else. *)
Lemma updateAnomaly_replaces_cameras_witness :
  anomalies site !! 5 = Some night_rule
  ∧ AnomalyRow.organizationId night_rule = 7
  ∧ all_owned site 7 [Js.Num 1]
  ∧ NoDup [Js.Num 1]
  ∧ statusCode (response (updateAnomaly (request [("cameraIds", Js.Arr [Js.Num 1])])) site) = 200
  ∧ ∀ n, (5, n) ∈ anomalyCameras
                     (final (updateAnomaly (request [("cameraIds", Js.Arr [Js.Num 1])])) site)
         ↔ Js.Num n ∈ [Js.Num 1].
Proof.
  assert (Hall : all_owned site 7 [Js.Num 1]).
  { apply Forall_cons. split; [| constructor]. exists 1. split; reflexivity. }
  assert (Hnd : NoDup [Js.Num 1]) by apply NoDup_singleton.
  split; [reflexivity |]. split; [reflexivity |]. split; [exact Hall |]. split; [exact Hnd |].
  destruct (updateAnomaly_replaces_cameras site
              (request [("cameraIds", Js.Arr [Js.Num 1])]) night_rule [Js.Num 1]
              eq_refl eq_refl eq_refl Hall Hnd) as (Hst & Hjoin & _).
  split; [exact Hst | exact Hjoin].
Defined.

(** The same update with camera 1 listed twice: every listed identifier
    is a camera of organization 7, yet the rule is not rebound; camera 1
    is not associated and camera 2 still is. *)
Lemma updateAnomaly_replaces_cameras_counterexample :
  anomalies site !! 5 = Some night_rule
  ∧ AnomalyRow.organizationId night_rule = 7
  ∧ all_owned site 7 [Js.Num 1; Js.Num 1]
  ∧ Js.Num 1 ∈ [Js.Num 1; Js.Num 1]
  ∧ ((5, 1) ∉ anomalyCameras
               (final (updateAnomaly (request [("cameraIds", Js.Arr [Js.Num 1; Js.Num 1])])) site))
  ∧ (Js.Num 2 ∉ [Js.Num 1; Js.Num 1])
  ∧ (5, 2) ∈ anomalyCameras
               (final (updateAnomaly (request [("cameraIds", Js.Arr [Js.Num 1; Js.Num 1])])) site).
Proof.
  assert (Hfinal : final (updateAnomaly (request [("cameraIds", Js.Arr [Js.Num 1; Js.Num 1])])) site
                   = site) by reflexivity.
  rewrite Hfinal. simpl.
  split; [reflexivity |]. split; [reflexivity |].
  split; [repeat (apply Forall_cons; split; [exists 1; split; reflexivity |]); constructor |].
  split; [by_listing |].
  split; [set_solver |]. split; [| set_solver].
  intros H. repeat (apply elem_of_cons in H as [H | H]; [discriminate |]).
  by apply elem_of_nil in H.
Qed.



(** Rule 5 is deleted by its organization; organization 3 cannot delete
    it. *)
Lemma deleteAnomaly_unbinds_then_destroys_witness :
  anomalies site !! 5 = Some night_rule
  ∧ AnomalyRow.organizationId night_rule = 7
  ∧ (∃ s1 s2,
       (calls (deleteAnomaly (request [])) site).*1
       = [AnomalyFindOne 5 7; AnomalySetCameras 5 []; AnomalyDestroy 5]
       ∧ calls (deleteAnomaly (request [])) site
         = [(AnomalyFindOne 5 7, site); (AnomalySetCameras 5 [], s1); (AnomalyDestroy 5, s2)]
       ∧ anomalies s1 !! 5 = Some night_rule
       ∧ (∀ c, (5, c) ∉ anomalyCameras s1)
       ∧ anomalies s2 !! 5 = None
       ∧ ∀ c a, a ∈ rules_of_camera s2 c → a.1 ≠ 5)
  ∧ (∀ r, anomalies site !! 5 = Some r → AnomalyRow.organizationId r ≠ 3)
  ∧ statusCode (response (deleteAnomaly
                  {| user_organizationId := 3; params_anomalyId := 5; body := [] |}) site)
    = 404
  ∧ final (deleteAnomaly {| user_organizationId := 3; params_anomalyId := 5; body := [] |}) site
    = site.
Proof.
  assert (Hforeign : ∀ r, anomalies site !! 5 = Some r → AnomalyRow.organizationId r ≠ 3).
  { intros r Hr. vm_compute in Hr. injection Hr as <-. discriminate. }
  split; [reflexivity |]. split; [reflexivity |]. split.
  - destruct (proj1 (deleteAnomaly_unbinds_then_destroys site (request []))
                night_rule eq_refl eq_refl)
      as (s1 & s2 & _ & Hcalls & _ & Hkept & Hunbound & Hgone & _ & _ & Hrules & _).
    exists s1, s2. split; [by rewrite Hcalls |]. split; [exact Hcalls |].
    split; [exact Hkept |]. split; [exact Hunbound |]. split; [exact Hgone | exact Hrules].
  - split; [exact Hforeign |].
    exact (proj2 (deleteAnomaly_unbinds_then_destroys site
                    {| user_organizationId := 3; params_anomalyId := 5; body := [] |})
             Hforeign).
Defined.

(** An update that names a new schedule and a new title: the title is
    taken, the schedule is not. *)
Lemma updateAnomaly_keeps_schedule_witness :
  anomalies site !! 5 = Some night_rule
  ∧ "startTime" ∈ ["startTime"; "endTime"; "daysOfWeek"]
  ∧ (∃ r',
       anomalies (final (updateAnomaly
                           (request [("startTime", Js.Str "08:00");
                                     ("endTime", Js.Str "17:00");
                                     ("daysOfWeek", Js.Arr [Js.Str "Mon"]);
                                     ("title", Js.Str "Renamed")])) site) !! 5
       = Some r'
       ∧ AnomalyRow.startTime r' = Js.Str "22:00"
       ∧ AnomalyRow.endTime r' = Js.Str "06:00"
       ∧ AnomalyRow.daysOfWeek r' = Js.Arr [Js.Str "Sat"; Js.Str "Sun"])
  ∧ handle (updateAnomaly (with_field "startTime" (Js.Str "08:00") (request []))) site
    = handle (updateAnomaly (request [])) site.
Proof.
  assert (Hk : "startTime" ∈ ["startTime"; "endTime"; "daysOfWeek"]) by by_listing.
  split; [reflexivity |]. split; [exact Hk |]. split.
  - exact (proj1 (updateAnomaly_keeps_schedule site
                    (request [("startTime", Js.Str "08:00");
                              ("endTime", Js.Str "17:00");
                              ("daysOfWeek", Js.Arr [Js.Str "Mon"]);
                              ("title", Js.Str "Renamed")]))
             5 night_rule eq_refl).
  - exact (proj2 (updateAnomaly_keeps_schedule site (request []))
             "startTime" (Js.Str "08:00") Hk).
Defined.

(** Camera 1, a camera of organization 7, listed twice in a complete
    create body and in an update of rule 5: 404 both times. *)
Lemma duplicate_cameraIds_rejected_witness :
  Js.get (body (request (titled [Js.Num 1; Js.Num 1]))) "cameraIds"
  = Js.Arr ([] ++ Js.Num 1 :: [] ++ Js.Num 1 :: [])%list
  ∧ owned site 7 1
  ∧ ¬ resolution_passes site 7 [Js.Num 1; Js.Num 1]
  ∧ statusCode (response (updateAnomaly (request (titled [Js.Num 1; Js.Num 1]))) site) = 404
  ∧ final (updateAnomaly (request (titled [Js.Num 1; Js.Num 1]))) site = site
  ∧ response (addAnomaly (request (titled [Js.Num 1; Js.Num 1]))) site
    = {| statusCode := 404;
         payload := ErrorBody "One or more cameras not found or access denied" |}
  ∧ (∀ days, ¬ create_fields_valid (request (untitled [Js.Num 1; Js.Num 1]))
                                   [Js.Num 1; Js.Num 1] days)
  ∧ statusCode (response (addAnomaly (request (untitled [Js.Num 1; Js.Num 1]))) site) = 400.
Proof.
  split; [reflexivity |]. split; [reflexivity |].
  destruct (duplicate_cameraIds_rejected site (request (titled [Js.Num 1; Js.Num 1]))
              [] [] [] 1 eq_refl)
    as (Hres & Hst & Hfinal & _ & _ & _ & Hcreate & _).
  split; [exact Hres |]. split; [exact Hst |]. split; [exact Hfinal |].
  split.
  { apply (Hcreate [Js.Str "Mon"; Js.Str "Fri"]).
    split; [by_listing |]. split; [reflexivity |]. split; [discriminate |].
    split; [reflexivity | by_listing]. }
  assert (Hinvalid : ∀ days, ¬ create_fields_valid (request (untitled [Js.Num 1; Js.Num 1]))
                                                   [Js.Num 1; Js.Num 1] days).
  { intros days [Hreq _]. apply Forall_cons in Hreq as [Htitle _]. discriminate Htitle. }
  split; [exact Hinvalid |].
  destruct (duplicate_cameraIds_rejected site (request (untitled [Js.Num 1; Js.Num 1]))
              [] [] [] 1 eq_refl)
    as (_ & _ & _ & _ & _ & _ & _ & H400).
  exact (proj1 (H400 Hinvalid)).
Defined.

(** Camera 1 listed twice in a create body without title: the answer is
    400, not 404. *)
Lemma duplicate_cameraIds_rejected_counterexample :
  Js.get (body (request (untitled [Js.Num 1; Js.Num 1]))) "cameraIds"
  = Js.Arr [Js.Num 1; Js.Num 1]
  ∧ owned site 7 1
  ∧ statusCode (response (addAnomaly (request (untitled [Js.Num 1; Js.Num 1]))) site) = 400
  ∧ statusCode (response (addAnomaly (request (untitled [Js.Num 1; Js.Num 1]))) site) ≠ 404.
Proof.
  split; [reflexivity |]. split; [reflexivity |].
  split; [reflexivity | vm_compute; discriminate].
Qed.

(** * Further properties of the controller *)

(** ** Every way a handler can end *)

Lemma addAnomaly_outcomes req s :
  let rows := Camera.rows_in s (Js.get (body req) "cameraIds") (user_organizationId req) in
  (statusCode (response (addAnomaly req) s) = 201
   ∧ final (addAnomaly req) s
     = Anomaly.with_joins (Anomaly.rebind (nextAnomalyId s) (Camera.cameraId <$> rows))
                          (created_store req s))
  ∨ (statusCode (response (addAnomaly req) s) = 400 ∧ final (addAnomaly req) s = s)
  ∨ (statusCode (response (addAnomaly req) s) = 404 ∧ final (addAnomaly req) s = s).
Proof.
  intros rows. rewrite addAnomaly_status.
  destruct (create_status_cases req s) as [E | [E | E]].
  - right. left. split; [done |]. by apply addAnomaly_rejected; rewrite E.
  - right. right. split; [done |]. by apply addAnomaly_rejected; rewrite E.
  - left. split; [done |]. unfold final. by rewrite (addAnomaly_created req s E).
Qed.

Lemma updateAnomaly_outcomes req s :
  let id := params_anomalyId req in
  let org := user_organizationId req in
  let cameraIds := Js.get (body req) "cameraIds" in
  let rows := Camera.rows_in s cameraIds org in
  (Anomaly.owned_by s id org = None
   ∧ statusCode (response (updateAnomaly req) s) = 404
   ∧ final (updateAnomaly req) s = s)
  ∨ (∃ r, Anomaly.owned_by s id org = Some (id, r)
          ∧ ¬ camera_guard_passes req s
          ∧ statusCode (response (updateAnomaly req) s) = 404
          ∧ final (updateAnomaly req) s = s)
  ∨ (∃ r, Anomaly.owned_by s id org = Some (id, r)
          ∧ Js.truthy cameraIds = true
          ∧ Js.num_strict_ne (Z.of_nat (length rows)) (Js.length cameraIds) = false
          ∧ statusCode (response (updateAnomaly req) s) = 200
          ∧ final (updateAnomaly req) s
            = Anomaly.with_anomalies (insert id (merged_row req r))
                (Anomaly.with_joins (Anomaly.rebind id (Camera.cameraId <$> rows)) s))
  ∨ (∃ r, Anomaly.owned_by s id org = Some (id, r)
          ∧ Js.truthy cameraIds = false
          ∧ statusCode (response (updateAnomaly req) s) = 200
          ∧ final (updateAnomaly req) s
            = Anomaly.with_anomalies (insert id (merged_row req r)) s).
Proof.
  intros id org cameraIds rows.
  destruct (Anomaly.owned_by s id org) as [[id' r] |] eqn:Hown.
  - pose proof (owned_by_inv _ _ _ _ Hown) as (Hid & _). simpl in Hid. subst id'.
    destruct (Js.truthy cameraIds) eqn:Htruthy.
    + destruct (Js.num_strict_ne (Z.of_nat (length rows)) (Js.length cameraIds)) eqn:Hcount.
      * right. left. exists r.
        assert (Hguard : ¬ camera_guard_passes req s).
        { intros Hg. specialize (Hg Htruthy). fold org cameraIds rows in Hg. congruence. }
        unfold response, final.
        rewrite (updateAnomaly_cameras_rejected _ _ _ Hown Hguard). auto.
      * right. right. left. exists r. unfold response, final.
        rewrite (updateAnomaly_rebound _ _ _ Hown Htruthy Hcount). auto.
    + right. right. right. exists r. unfold response, final.
      rewrite (updateAnomaly_fields_only _ _ _ Hown Htruthy). auto.
  - left. unfold response, final. rewrite (updateAnomaly_not_found _ _ Hown). auto.
Qed.

Lemma deleteAnomaly_outcomes req s :
  let id := params_anomalyId req in
  let org := user_organizationId req in
  (Anomaly.owned_by s id org = None
   ∧ response (deleteAnomaly req) s
     = {| statusCode := 404;
          payload := MessageBody "Anomaly not found or does not belong to your organization" |}
   ∧ final (deleteAnomaly req) s = s)
  ∨ (∃ r, Anomaly.owned_by s id org = Some (id, r)
          ∧ statusCode (response (deleteAnomaly req) s) = 200
          ∧ final (deleteAnomaly req) s
            = Anomaly.with_anomalies (delete id)
                (Anomaly.with_joins (Anomaly.rebind id []) s)).
Proof.
  intros id org.
  destruct (Anomaly.owned_by s id org) as [[id' r] |] eqn:Hown.
  - pose proof (owned_by_inv _ _ _ _ Hown) as (Hid & _). simpl in Hid. subst id'.
    right. exists r. unfold response, final.
    rewrite (deleteAnomaly_deleted _ _ _ Hown). auto.
  - left. unfold response, final. rewrite (deleteAnomaly_not_found _ _ Hown). auto.
Qed.

(** ** Failure leaves no trace *)

(** X1.  Whatever the store and the request, a create answered 400 or
    404, an update answered 404 and a delete answered 404 leave the store
    exactly as it was: each of these responses is sent before the first
    write of its handler.  (The 500 answers of the [catch] branches,
    which can follow a write, are outside the model.) *)
Theorem failed_request_changes_nothing (s : Store) (req : Request) :
  (statusCode (response (addAnomaly req) s) = 400
   ∨ statusCode (response (addAnomaly req) s) = 404 →
   final (addAnomaly req) s = s)
  ∧ (statusCode (response (updateAnomaly req) s) = 404 → final (updateAnomaly req) s = s)
  ∧ (statusCode (response (deleteAnomaly req) s) = 404 → final (deleteAnomaly req) s = s).
Proof.
  split; [| split].
  - destruct (addAnomaly_outcomes req s) as [[H _] | [[_ ?] | [_ ?]]]; [| done..].
    rewrite H. intros [? | ?]; discriminate.
  - destruct (updateAnomaly_outcomes req s)
      as [(_ & _ & ?) | [(r & _ & _ & _ & ?) | [(r & _ & _ & _ & H & _) | (r & _ & _ & H & _)]]];
      [done | done | rewrite H; discriminate | rewrite H; discriminate].
  - destruct (deleteAnomaly_outcomes req s) as [(_ & _ & ?) | (r & _ & H & _)];
      [done | rewrite H; discriminate].
Qed.

(** ** Tenant consistency of the join relation *)

Lemma owned_inv s org c :
  owned s org c → ∃ rc, cameras s !! c = Some rc ∧ CameraRow.organizationId rc = org.
Proof.
  unfold owned. destruct (cameras s !! c) as [rc |]; [| discriminate].
  intros [= H]. eauto.
Qed.

Lemma resolved_key_owned s ids org c :
  c ∈ Camera.cameraId <$> Camera.rows_in s ids org →
  ∃ rc, cameras s !! c = Some rc ∧ CameraRow.organizationId rc = org.
Proof.
  change (Camera.cameraId <$> ?l) with (l.*1).
  intros H. apply rows_in_keys in H as [_ H]. by apply owned_inv.
Qed.

(** X2.  The three mutating handlers keep the join relation consistent:
    if every association of the store joins a stored rule to a stored
    camera of the same organization, the same is true of the store each
    handler leaves, whatever the request.  No request can bind a rule to a
    camera of another organization, move a bound rule to another
    organization, or leave an association without its rule. *)
Theorem handlers_keep_consistency (s : Store) (req : Request) :
  consistent s →
  consistent (final (addAnomaly req) s)
  ∧ consistent (final (updateAnomaly req) s)
  ∧ consistent (final (deleteAnomaly req) s).
Proof.
  intros Hs. split; [| split].
  - destruct (addAnomaly_outcomes req s) as [[_ ->] | [[_ ->] | [_ ->]]]; [| done..].
    intros a c Hin. simpl in Hin.
    apply elem_of_rebind in Hin as [[Hne Hin] | [Ha Hc]]; simpl in *.
    + destruct (Hs a c Hin) as (ra & rc & Hra & Hrc & Horg).
      exists ra, rc. by rewrite lookup_insert_ne.
    + subst a. apply resolved_key_owned in Hc as (rc & Hrc & Horg).
      exists (created_row req s), rc. by rewrite lookup_insert_eq.
  - destruct (updateAnomaly_outcomes req s)
      as [(_ & _ & ->) | [(r & _ & _ & _ & ->)
         | [(r & Hown & _ & _ & _ & ->) | (r & Hown & _ & _ & ->)]]]; [done | done | |].
    + apply owned_by_inv in Hown as (_ & Hr & Horg). simpl in Hr, Horg.
      intros a c Hin. simpl in Hin.
      apply elem_of_rebind in Hin as [[Hne Hin] | [Ha Hc]]; simpl in *.
      * destruct (Hs a c Hin) as (ra & rc & Hra & Hrc & Hsame).
        exists ra, rc. by rewrite lookup_insert_ne.
      * subst a. apply resolved_key_owned in Hc as (rc & Hrc & Hcam).
        exists (merged_row req r), rc. rewrite lookup_insert_eq. simpl. by rewrite Horg, Hcam.
    + apply owned_by_inv in Hown as (_ & Hr & Horg). simpl in Hr, Horg.
      intros a c Hin. simpl in Hin.
      destruct (Hs a c Hin) as (ra & rc & Hra & Hrc & Hsame).
      destruct (decide (params_anomalyId req = a)) as [<- | Hne].
      * exists (merged_row req r), rc. simpl. rewrite lookup_insert_eq.
        split; [done |]. split; [done |]. simpl. congruence.
      * exists ra, rc. simpl. by rewrite lookup_insert_ne.
  - destruct (deleteAnomaly_outcomes req s) as [(_ & _ & ->) | (r & _ & _ & ->)]; [done |].
    intros a c Hin. simpl in Hin.
    apply elem_of_rebind in Hin as [[Hne Hin] | [_ Hc]]; simpl in *.
    + destruct (Hs a c Hin) as (ra & rc & Hra & Hrc & Hsame).
      exists ra, rc. by rewrite lookup_delete_ne.
    + by apply elem_of_nil in Hc.
Qed.

(** ** Fresh keys *)

Lemma is_Some_insert_inv {A} (m : gmap Z A) i j x :
  is_Some (<[i := x]> m !! j) → j = i ∨ is_Some (m !! j).
Proof.
  destruct (decide (i = j)) as [-> | Hne]; [by left |].
  rewrite lookup_insert_ne by done. by right.
Qed.

(** X3.  The three mutating handlers keep the key counter ahead of every
    rule key in use: if no stored rule and no association carries a key at
    or above the counter, the same is true of the store each handler
    leaves.  A create is the only handler that moves the counter. *)
Theorem handlers_keep_counter_fresh (s : Store) (req : Request) :
  counter_fresh s →
  counter_fresh (final (addAnomaly req) s)
  ∧ counter_fresh (final (updateAnomaly req) s)
  ∧ counter_fresh (final (deleteAnomaly req) s)
  ∧ nextAnomalyId (final (updateAnomaly req) s) = nextAnomalyId s
  ∧ nextAnomalyId (final (deleteAnomaly req) s) = nextAnomalyId s.
Proof.
  intros [Hrules Hjoins]. split; [| split; [| split; [| split]]].
  - destruct (addAnomaly_outcomes req s) as [[_ ->] | [[_ ->] | [_ ->]]]; [| done..].
    split; simpl.
    + intros a Ha. apply is_Some_insert_inv in Ha as [-> | Ha]; [lia |].
      specialize (Hrules a Ha). lia.
    + intros a c Hin. apply elem_of_rebind in Hin as [[_ Hin] | [Ha _]]; simpl in *.
      * specialize (Hjoins a c Hin). lia.
      * lia.
  - destruct (updateAnomaly_outcomes req s)
      as [(_ & _ & ->) | [(r & _ & _ & _ & ->)
         | [(r & Hown & _ & _ & _ & ->) | (r & Hown & _ & _ & ->)]]]; [done | done | |];
      apply owned_by_inv in Hown as (_ & Hr & _); simpl in Hr;
      assert (Hid : params_anomalyId req < nextAnomalyId s) by (apply Hrules; eauto).
    + split; simpl.
      * intros a Ha. apply is_Some_insert_inv in Ha as [-> | Ha]; [done | by apply Hrules].
      * intros a c Hin. apply elem_of_rebind in Hin as [[_ Hin] | [Ha _]]; simpl in *.
        -- by apply (Hjoins a c).
        -- by subst a.
    + split; simpl.
      * intros a Ha. apply is_Some_insert_inv in Ha as [-> | Ha]; [done | by apply Hrules].
      * done.
  - destruct (deleteAnomaly_outcomes req s) as [(_ & _ & ->) | (r & _ & _ & ->)]; [done |].
    split; simpl.
    + intros a Ha. apply Hrules.
      destruct (decide (params_anomalyId req = a)) as [<- | Hne].
      * rewrite lookup_delete_eq in Ha. by destruct Ha.
      * by rewrite lookup_delete_ne in Ha.
    + intros a c Hin. apply elem_of_rebind in Hin as [[_ Hin] | [_ Hc]]; simpl in *.
      * by apply (Hjoins a c).
      * by apply elem_of_nil in Hc.
  - destruct (updateAnomaly_outcomes req s)
      as [(_ & _ & ->) | [(r & _ & _ & _ & ->)
         | [(r & _ & _ & _ & _ & ->) | (r & _ & _ & _ & ->)]]]; reflexivity.
  - destruct (deleteAnomaly_outcomes req s) as [(_ & _ & ->) | (r & _ & _ & ->)]; reflexivity.
Qed.

(** X4.  In a store whose counter is ahead of every key in use, a create
    answered 201 stores the new rule under a key no rule had, keeps every
    rule that was stored and every association that was made, adds
    associations of the new rule only, leaves the cameras table alone and
    advances the counter by one. *)
Theorem addAnomaly_keeps_existing (s : Store) (req : Request) :
  let s' := final (addAnomaly req) s in
  let id := nextAnomalyId s in
  counter_fresh s →
  statusCode (response (addAnomaly req) s) = 201 →
  anomalies s !! id = None
  ∧ anomalies s' !! id = Some (created_row req s)
  ∧ (∀ a r, anomalies s !! a = Some r → anomalies s' !! a = Some r)
  ∧ (∀ a c, (a, c) ∈ anomalyCameras s → (a, c) ∈ anomalyCameras s')
  ∧ (∀ a c, (a, c) ∈ anomalyCameras s' → a = id ∨ (a, c) ∈ anomalyCameras s)
  ∧ cameras s' = cameras s
  ∧ nextAnomalyId s' = id + 1.
Proof.
  intros s' id [Hrules Hjoins] Hst. subst s'.
  assert (Hnone : anomalies s !! id = None).
  { destruct (anomalies s !! id) eqn:E; [| done].
    assert (id < id) by (apply Hrules; eauto). lia. }
  destruct (addAnomaly_outcomes req s) as [[_ ->] | [[? _] | [? _]]]; [| congruence..].
  simpl. fold id.
  split; [done |]. split; [apply lookup_insert_eq |].
  split.
  { intros a r Ha. rewrite lookup_insert_ne; [done |]. intros <-. congruence. }
  split.
  { intros a c Hin. apply elem_of_rebind. left. split; [| done]. simpl.
    specialize (Hjoins a c Hin). fold id in Hjoins. lia. }
  split; [| done].
  intros a c Hin. apply elem_of_rebind in Hin as [[_ Hin] | [Ha _]]; auto.
Qed.

(** ** What an update leaves alone *)

(** X5.  Whatever the request, an update touches one rule only: every
    rule other than the one named in the path is stored as before, the
    associations of every other rule are as before, the cameras table and
    the key counter are as before, the set of stored rule keys is the
    same, and the named rule, if it was stored, keeps its organization. *)
Theorem updateAnomaly_frame (s : Store) (req : Request) :
  let s' := final (updateAnomaly req) s in
  let id := params_anomalyId req in
  (∀ a, a ≠ id → anomalies s' !! a = anomalies s !! a)
  ∧ (∀ a c, a ≠ id → (a, c) ∈ anomalyCameras s' ↔ (a, c) ∈ anomalyCameras s)
  ∧ cameras s' = cameras s
  ∧ nextAnomalyId s' = nextAnomalyId s
  ∧ dom (anomalies s') = dom (anomalies s)
  ∧ (AnomalyRow.organizationId <$> anomalies s' !! id)
    = (AnomalyRow.organizationId <$> anomalies s !! id).
Proof.
  intros s' id. subst s'.
  destruct (updateAnomaly_outcomes req s)
    as [(_ & _ & ->) | [(r & _ & _ & _ & ->)
       | [(r & Hown & _ & _ & _ & ->) | (r & Hown & _ & _ & ->)]]];
    [by repeat split | by repeat split | |];
    apply owned_by_inv in Hown as (_ & Hr & _); simpl in Hr; fold id in Hr |- *; simpl.
  - split; [intros a Hne; by rewrite lookup_insert_ne |].
    split; [intros a c Hne; by apply rebind_other |].
    split; [done |]. split; [done |].
    split.
    + rewrite dom_insert_L. apply subseteq_union_1_L, singleton_subseteq_l.
      by apply elem_of_dom_2 with r.
    + by rewrite lookup_insert_eq, Hr.
  - split; [intros a Hne; by rewrite lookup_insert_ne |].
    split; [done |]. split; [done |]. split; [done |].
    split.
    + rewrite dom_insert_L. apply subseteq_union_1_L, singleton_subseteq_l.
      by apply elem_of_dom_2 with r.
    + by rewrite lookup_insert_eq, Hr.
Qed.

Lemma coalesce_twice a b : Js.coalesce a (Js.coalesce a b) = Js.coalesce a b.
Proof. unfold Js.coalesce. by destruct (Js.nullish a). Qed.

Lemma merged_row_twice req r : merged_row req (merged_row req r) = merged_row req r.
Proof. unfold merged_row. simpl. by rewrite !coalesce_twice. Qed.

Lemma rebind_twice id ids joins :
  Anomaly.rebind id ids (Anomaly.rebind id ids joins) = Anomaly.rebind id ids joins.
Proof.
  apply set_eq. intros p. rewrite !elem_of_rebind. split.
  - intros [[Hne [[_ H] | [Heq _]]] | H]; [by left | contradiction | by right].
  - intros [[Hne H] | H]; [left; split; [done |]; by left | by right].
Qed.

(** X6.  An update is idempotent: sent a second time against the store
    the first one left, the same request gets the same status and leaves
    that store unchanged. *)
Theorem updateAnomaly_idempotent (s : Store) (req : Request) :
  let s' := final (updateAnomaly req) s in
  final (updateAnomaly req) s' = s'
  ∧ statusCode (response (updateAnomaly req) s')
    = statusCode (response (updateAnomaly req) s).
Proof.
  intros s'. subst s'.
  destruct (updateAnomaly_outcomes req s)
    as [(_ & Hst & Hf) | [(r & _ & _ & Hst & Hf)
       | [(r & Hown & Htruthy & Hcount & Hst & Hf) | (r & Hown & Htruthy & Hst & Hf)]]];
    [by rewrite !Hf | by rewrite !Hf | |];
    pose proof (owned_by_inv _ _ _ _ Hown) as (_ & Hr & Horg); simpl in Hr, Horg.
  - rewrite Hf, Hst.
    set (id := params_anomalyId req) in *. set (org := user_organizationId req) in *.
    set (keys := Camera.cameraId <$> Camera.rows_in s (Js.get (body req) "cameraIds") org) in *.
    set (s2 := Anomaly.with_anomalies (insert id (merged_row req r))
                 (Anomaly.with_joins (Anomaly.rebind id keys) s)).
    assert (Hown2 : Anomaly.owned_by s2 id org = Some (id, merged_row req r)).
    { apply owned_by_Some; [apply lookup_insert_eq | done]. }
    pose proof (updateAnomaly_rebound req s2 (merged_row req r) Hown2 Htruthy Hcount) as Hrun.
    unfold response, final. rewrite Hrun. simpl. split; [| done].
    fold id org keys. unfold Anomaly.with_anomalies, Anomaly.with_joins. simpl.
    by rewrite merged_row_twice, insert_insert_eq, rebind_twice.
  - rewrite Hf, Hst.
    set (id := params_anomalyId req) in *. set (org := user_organizationId req) in *.
    set (s2 := Anomaly.with_anomalies (insert id (merged_row req r)) s).
    assert (Hown2 : Anomaly.owned_by s2 id org = Some (id, merged_row req r)).
    { apply owned_by_Some; [apply lookup_insert_eq | done]. }
    pose proof (updateAnomaly_fields_only req s2 (merged_row req r) Hown2 Htruthy) as Hrun.
    unfold response, final. rewrite Hrun. simpl. split; [| done].
    fold id. unfold Anomaly.with_anomalies. simpl.
    by rewrite merged_row_twice, insert_insert_eq.
Qed.

(** ** What the handlers do not read *)

Lemma get_with_field_other k v req (keys : list string) k' :
  k ∉ keys → k' ∈ keys →
  Js.get (body (with_field k v req)) k' = Js.get (body req) k'.
Proof.
  intros Hk Hk'. apply get_with_field_ne, String.eqb_neq. by intros ->.
Qed.

(** X7.  A create reads eight body properties and an update six; any
    other property of the body, whatever its value, changes nothing in
    the response, the final store or the storage calls.  In particular
    a body cannot choose the organization, the key or (on create) the
    status of a rule: the first is the acting user's, the second the
    store's, the third the column default. *)
Theorem handlers_ignore_other_fields (s : Store) (req : Request) (k : string) (v : Js.value) :
  (k ∉ create_keys →
   handle (addAnomaly (with_field k v req)) s = handle (addAnomaly req) s)
  ∧ (k ∉ update_keys →
     handle (updateAnomaly (with_field k v req)) s = handle (updateAnomaly req) s).
Proof.
  split; intros Hk.
  - assert (Hget : ∀ k', k' ∈ create_keys →
               Js.get (body (with_field k v req)) k' = Js.get (body req) k')
      by (intros k'; by apply get_with_field_other).
    unfold addAnomaly.
    rewrite !Hget by (unfold create_keys; by_listing).
    reflexivity.
  - assert (Hget : ∀ k', k' ∈ update_keys →
               Js.get (body (with_field k v req)) k' = Js.get (body req) k')
      by (intros k'; by apply get_with_field_other).
    unfold updateAnomaly.
    rewrite !Hget by (unfold update_keys; by_listing).
    reflexivity.
Qed.

(** ** Create, then delete *)

Lemma rebind_nil_unbound id ids joins :
  (∀ c, (id, c) ∉ joins) →
  Anomaly.rebind id [] (Anomaly.rebind id ids joins) = joins.
Proof.
  intros Hfree. apply set_eq. intros [a c]. rewrite !elem_of_rebind. simpl. split.
  - intros [[Hne [[_ H] | [Heq _]]] | [_ H]];
      [done | contradiction | by apply elem_of_nil in H].
  - intros H. left.
    assert (Hne : a ≠ id) by (intros ->; by apply (Hfree c)).
    split; [done |]. by left.
Qed.

(** X8.  In a store whose counter is ahead of every key in use, deleting
    the rule that a create has just stored (the create answered 201, the
    delete names the key it returned and comes from the same
    organization) is answered 200 and gives back the store as it was
    before the create, rules, associations and cameras alike; only the
    key counter has moved on, so the key is not handed out again. *)
Theorem create_then_delete_restores (s : Store) (req : Request) :
  let s1 := final (addAnomaly req) s in
  let del := about (nextAnomalyId s) req in
  counter_fresh s →
  statusCode (response (addAnomaly req) s) = 201 →
  (∃ created,
     payload (response (addAnomaly req) s) = CreatedBody (Some created)
     ∧ anomalyId created = nextAnomalyId s)
  ∧ statusCode (response (deleteAnomaly del) s1) = 200
  ∧ final (deleteAnomaly del) s1
    = {| cameras := cameras s;
         anomalies := anomalies s;
         anomalyCameras := anomalyCameras s;
         nextAnomalyId := nextAnomalyId s + 1;
         statusDefault := statusDefault s;
         throughName := throughName s;
         throughJSON := throughJSON s |}.
Proof.
  intros s1 del [Hrules Hjoins] Hst. subst s1.
  assert (Hnone : anomalies s !! nextAnomalyId s = None).
  { destruct (anomalies s !! nextAnomalyId s) eqn:E; [| done].
    assert (nextAnomalyId s < nextAnomalyId s) by (apply Hrules; eauto). lia. }
  assert (Hfree : ∀ c, (nextAnomalyId s, c) ∉ anomalyCameras s).
  { intros c Hin. specialize (Hjoins _ _ Hin). lia. }
  rewrite addAnomaly_status in Hst.
  pose proof (addAnomaly_created req s Hst) as Hrun. simpl in Hrun.
  unfold response, final. rewrite Hrun. simpl.
  split; [by eexists |].
  set (s1 := Anomaly.with_joins _ (created_store req s)).
  assert (Hown : Anomaly.owned_by s1 (params_anomalyId del) (user_organizationId del)
                 = Some (params_anomalyId del, created_row req s)).
  { apply owned_by_Some; [apply lookup_insert_eq | reflexivity]. }
  rewrite (deleteAnomaly_deleted del s1 _ Hown). simpl.
  split; [reflexivity |].
  unfold Anomaly.with_anomalies, Anomaly.with_joins. simpl.
  rewrite delete_insert_eq, (delete_id _ _ Hnone), (rebind_nil_unbound _ _ _ Hfree).
  reflexivity.
Qed.

(** ** After a delete *)

Lemma owned_by_deleted s id org' :
  Anomaly.owned_by
    (Anomaly.with_anomalies (delete id) (Anomaly.with_joins (Anomaly.rebind id []) s)) id org'
  = None.
Proof. unfold Anomaly.owned_by. simpl. by rewrite lookup_delete_eq. Qed.

(** X9.  Once a delete has been answered 200, the rule is gone for every
    organization and every later request that names it: a second delete
    and any update are answered 404 and change nothing, and no
    organization's listing has an entry with its key. *)
Theorem deleted_rule_is_gone (s : Store) (req later : Request) :
  let s' := final (deleteAnomaly req) s in
  statusCode (response (deleteAnomaly req) s) = 200 →
  params_anomalyId later = params_anomalyId req →
  statusCode (response (deleteAnomaly later) s') = 404
  ∧ final (deleteAnomaly later) s' = s'
  ∧ statusCode (response (updateAnomaly later) s') = 404
  ∧ final (updateAnomaly later) s' = s'
  ∧ ∀ l a, payload (response (getAllAnomalies later) s') = ListBody l →
           a ∈ l → anomalyId a ≠ params_anomalyId req.
Proof.
  intros s' Hst Hsame. subst s'.
  destruct (deleteAnomaly_outcomes req s) as [(_ & Hresp & _) | (r & _ & _ & Hfinal)].
  { rewrite Hresp in Hst. discriminate. }
  rewrite Hfinal.
  pose proof (owned_by_deleted s (params_anomalyId req) (user_organizationId later))
    as Hgone.
  rewrite <- Hsame in Hgone at 3.
  unfold response, final.
  rewrite (deleteAnomaly_not_found _ _ Hgone), (updateAnomaly_not_found _ _ Hgone). simpl.
  repeat (split; [reflexivity |]).
  intros l a [= <-] Ha.
  apply list_elem_of_fmap in Ha as ([k ra] & -> & Hin).
  apply list_elem_of_filter in Hin as [_ Hin].
  apply elem_of_map_to_list in Hin. simpl in *.
  intros ->. by rewrite lookup_delete_eq in Hin.
Qed.

(** ** Rules of another organization *)

(** X10.  To an organization, a rule of another organization looks
    exactly like a rule that does not exist: an update or a delete naming
    it gets the very response it would get if the rule were absent from
    the store (404), nothing is changed, and the update stops after the
    rule lookup, before any camera lookup, whatever its body. *)
Theorem foreign_rule_looks_absent (s : Store) (req : Request) (r : AnomalyRow.t) :
  let id := params_anomalyId req in
  anomalies s !! id = Some r →
  AnomalyRow.organizationId r ≠ user_organizationId req →
  response (updateAnomaly req) s = response (updateAnomaly req) (without_rule id s)
  ∧ response (deleteAnomaly req) s = response (deleteAnomaly req) (without_rule id s)
  ∧ statusCode (response (updateAnomaly req) s) = 404
  ∧ statusCode (response (deleteAnomaly req) s) = 404
  ∧ final (updateAnomaly req) s = s
  ∧ final (deleteAnomaly req) s = s
  ∧ (calls (updateAnomaly req) s).*1 = [AnomalyFindOne id (user_organizationId req)].
Proof.
  intros id Hr Hforeign.
  assert (Hnone : Anomaly.owned_by s id (user_organizationId req) = None).
  { apply owned_by_None. intros r' Hr'. congruence. }
  assert (Hnone' : Anomaly.owned_by (without_rule id s) id (user_organizationId req) = None).
  { unfold Anomaly.owned_by, without_rule. simpl. by rewrite lookup_delete_eq. }
  unfold response, final, calls.
  rewrite (updateAnomaly_not_found _ _ Hnone), (updateAnomaly_not_found _ _ Hnone').
  rewrite (deleteAnomaly_not_found _ _ Hnone), (deleteAnomaly_not_found _ _ Hnone').
  by repeat split.
Qed.

(** ** Array-shaped fields *)

(** X11.  With the seven required fields present, a create whose
    [cameraIds] is not an array, or is the empty array, is answered 400
    "cameraIds must be a non-empty array"; one whose [cameraIds] is a
    non-empty array and whose [daysOfWeek] is not an array is answered 400
    "daysOfWeek must be an array".  Neither makes a storage call.  An
    empty [daysOfWeek] array, by contrast, passes: the create goes on to
    camera resolution and is never answered 400. *)
Theorem addAnomaly_array_guards (s : Store) (req : Request) :
  Forall (λ k, Js.truthy (Js.get (body req) k) = true) required_fields →
  (Js.isArray (Js.get (body req) "cameraIds") = false
   ∨ Js.get (body req) "cameraIds" = Js.Arr [] →
   handle (addAnomaly req) s
   = ({| statusCode := 400; payload := ErrorBody "cameraIds must be a non-empty array" |},
      {| db := s; log := [] |}))
  ∧ (∀ items,
       Js.get (body req) "cameraIds" = Js.Arr items → items ≠ [] →
       (Js.isArray (Js.get (body req) "daysOfWeek") = false →
        handle (addAnomaly req) s
        = ({| statusCode := 400; payload := ErrorBody "daysOfWeek must be an array" |},
           {| db := s; log := [] |}))
       ∧ (Js.get (body req) "daysOfWeek" = Js.Arr [] →
          statusCode (response (addAnomaly req) s) ≠ 400
          ∧ (calls (addAnomaly req) s).*1 ≠ [])).
Proof.
  intros Hreq. apply missing_required_false in Hreq. split.
  - intros Hshape. unfold_handler. rewrite missing_required_guard, Hreq.
    destruct Hshape as [-> | ->]; reflexivity.
  - intros items Hids Hne. apply nonempty_check in Hne. split.
    + intros Hdays. unfold_handler.
      by rewrite missing_required_guard, Hreq, Hids, Hne, Hdays.
    + intros Hdays.
      assert (Hvalid : create_fields_valid req items []).
      { split; [by apply missing_required_false |].
        split; [done |]. split; [by apply nonempty_check |]. split; [done | constructor]. }
      pose proof (create_status_valid req s items [] Hvalid) as Hst.
      rewrite addAnomaly_status.
      destruct (Js.num_strict_ne _ _) eqn:Hcount.
      * split; [by rewrite Hst |].
        destruct (addAnomaly_rejected req s ltac:(by rewrite Hst)) as (_ & _ & ->); done.
      * split; [by rewrite Hst |].
        unfold calls. by rewrite (addAnomaly_created req s Hst).
Qed.

(** ** Absent and empty camera collections in an update *)

(** X12.  For an update of a stored rule of the acting organization: when
    the body has no [cameraIds], or a falsy one (null, false, 0, the empty
    string), the answer is 200, the join relation is left exactly as it
    was and no camera lookup is made; when [cameraIds] is the empty array,
    which a create rejects, the answer is 200 as well, the rule ends with
    no camera at all and the returned rule lists none. *)
Theorem updateAnomaly_absent_or_empty_cameraIds (s : Store) (req : Request) (r : AnomalyRow.t) :
  let id := params_anomalyId req in
  let org := user_organizationId req in
  anomalies s !! id = Some r →
  AnomalyRow.organizationId r = org →
  (Js.truthy (Js.get (body req) "cameraIds") = false →
   statusCode (response (updateAnomaly req) s) = 200
   ∧ anomalyCameras (final (updateAnomaly req) s) = anomalyCameras s
   ∧ (calls (updateAnomaly req) s).*1
     = [AnomalyFindOne id org; AnomalySave id; AnomalyFindByPk id])
  ∧ (Js.get (body req) "cameraIds" = Js.Arr [] →
     response (updateAnomaly req) s
     = {| statusCode := 200;
          payload := UpdatedBody "Anomaly updated successfully"
                       (Some {| anomalyId := id;
                                columns := merged_row req r;
                                Cameras := [] |}) |}
     ∧ ∀ c, (id, c) ∉ anomalyCameras (final (updateAnomaly req) s)).
Proof.
  intros id org Hr Horg.
  pose proof (owned_by_Some _ _ _ _ Hr Horg) as Hown. split.
  - intros Hfalsy. unfold response, final, calls.
    by rewrite (updateAnomaly_fields_only _ _ _ Hown Hfalsy).
  - intros Hids.
    assert (Hrows : Camera.rows_in s (Js.Arr []) org = []).
    { destruct (Camera.rows_in s (Js.Arr []) org) as [| c l] eqn:E; [done |].
      assert (Hc : c ∈ Camera.rows_in s (Js.Arr []) org) by (rewrite E; left).
      apply elem_of_rows_in in Hc as (_ & Hc & _). by apply elem_of_nil in Hc. }
    assert (Htruthy : Js.truthy (Js.get (body req) "cameraIds") = true) by by rewrite Hids.
    assert (Hcount : Js.num_strict_ne
                       (Z.of_nat (length (Camera.rows_in s (Js.get (body req) "cameraIds") org)))
                       (Js.length (Js.get (body req) "cameraIds")) = false)
      by by rewrite Hids, Hrows.
    unfold response, final.
    rewrite (updateAnomaly_rebound _ _ _ Hown Htruthy Hcount). simpl.
    fold id org. rewrite Hids, Hrows. simpl.
    split; [reflexivity |]. intros c. apply rebind_nil_own.
Qed.

(** ** Routing *)

Lemma same_text_common a b segment :
  Express.same_text a segment = true →
  Express.same_text b segment = true →
  Express.same_text a b = true.
Proof.
  unfold Express.same_text. rewrite !String.eqb_eq. congruence.
Qed.

Lemma bind_overlapping p q segments :
  is_Some (Express.bind p segments) →
  is_Some (Express.bind q segments) →
  overlapping p q = true.
Proof.
  revert q segments. induction p as [| x p IH]; intros [| y q] [| segment segments];
    simpl; intros Hp Hq;
    try reflexivity;
    try (by destruct Hp); try (by destruct Hq);
    try (destruct x; by destruct Hp); try (destruct y; by destruct Hq).
  assert (Hrest : is_Some (Express.bind p segments) ∧ is_Some (Express.bind q segments)).
  { split.
    - destruct x; [destruct (Express.same_text _ _); [done | by destruct Hp] |].
      destruct (String.eqb segment ""); [by destruct Hp |].
      by apply fmap_is_Some in Hp.
    - destruct y; [destruct (Express.same_text _ _); [done | by destruct Hq] |].
      destruct (String.eqb segment ""); [by destruct Hq |].
      by apply fmap_is_Some in Hq. }
  destruct Hrest as [Hp' Hq']. specialize (IH q segments Hp' Hq').
  destruct x as [a | a], y as [b | b]; try exact IH.
  rewrite IH, andb_true_r.
  destruct (Express.same_text a segment) eqn:Ha; [| by destruct Hp].
  destruct (Express.same_text b segment) eqn:Hb; [| by destruct Hq].
  by apply (same_text_common a b segment).
Qed.

Lemma matching_routes_clash r1 r2 m segments :
  Express.handles (verb r1) m = true → is_Some (Express.bind (path r1) segments) →
  Express.handles (verb r2) m = true → is_Some (Express.bind (path r2) segments) →
  clash r1 r2 = true.
Proof.
  intros H1 B1 H2 B2. unfold clash.
  rewrite (bind_overlapping _ _ _ B1 B2), andb_true_r.
  apply existsb_exists. exists m. split; [destruct m; simpl; tauto |].
  by rewrite H1, H2.
Qed.

(** In a table without clashes the order of registration decides nothing:
    a request is dispatched to a route exactly when that route is in the
    table, handles the method and matches the path. *)
Lemma clash_free_dispatch routes m segments r params :
  clash_free routes = true →
  dispatch routes m segments = Some (r, params)
  ↔ r ∈ routes
    ∧ Express.handles (verb r) m = true
    ∧ Express.bind (path r) segments = Some params.
Proof.
  induction routes as [| r0 rest IH]; simpl; intros Hfree.
  - split; [discriminate | intros [H _]; by apply elem_of_nil in H].
  - apply andb_prop in Hfree as [Hhead Hfree]. specialize (IH Hfree).
    rewrite forallb_forall in Hhead.
    destruct (Express.handles (verb r0) m) eqn:Hverb;
      [destruct (Express.bind (path r0) segments) as [params0 |] eqn:Hbind |].
    + split.
      * intros [= <- <-]. split; [left | done].
      * intros (Hin & Hv & Hb). apply elem_of_cons in Hin as [-> | Hin]; [congruence |].
        exfalso. apply list_elem_of_In in Hin. specialize (Hhead r Hin).
        rewrite (matching_routes_clash r0 r m segments) in Hhead; [discriminate | done | | done |].
        -- by rewrite Hbind.
        -- by rewrite Hb.
    + rewrite IH. split.
      * intros (Hin & Hv & Hb). split; [by right | done].
      * intros (Hin & Hv & Hb). apply elem_of_cons in Hin as [-> | Hin]; [congruence | done].
    + rewrite IH. split.
      * intros (Hin & Hv & Hb). split; [by right | done].
      * intros (Hin & Hv & Hb). apply elem_of_cons in Hin as [-> | Hin]; [congruence | done].
Qed.

(** X13.  In the organization router no route shadows another: a
    request is dispatched to a route exactly when that route is
    registered, handles the method and matches the path, so at most one
    route can answer a request and the registration order decides nothing
    (GET .../camera/anomaly-stats reaches the statistics handler; PUT and
    DELETE on the same path reach the camera handlers with that text as
    [cameraId]).  Every route of the router is behind
    [authorizeRole(ORGANIZATION_ADMIN)]. *)
Theorem organizationRoutes_dispatch (m : Express.method) (segments : list string)
    (r : Route) (params : list (string * string)) :
  (dispatch organizationRoutes m segments = Some (r, params)
   ↔ r ∈ organizationRoutes
     ∧ Express.handles (verb r) m = true
     ∧ Express.bind (path r) segments = Some params)
  ∧ (dispatch organizationRoutes m segments = Some (r, params) →
     role r = ORGANIZATION_ADMIN).
Proof.
  assert (Hiff := clash_free_dispatch organizationRoutes m segments r params eq_refl).
  split; [exact Hiff |].
  intros H. apply Hiff in H as [Hin _].
  unfold organizationRoutes in Hin.
  repeat (apply elem_of_cons in Hin as [-> | Hin]; [reflexivity |]).
  by apply elem_of_nil in Hin.
Qed.

(** X14.  The same for the analytics router: no route shadows another
    (GET /anomaly/stats reaches the statistics handler, not the list; the
    one route with a parameter is the only PATCH route), dispatch is
    decided by method and path alone, and every route is behind
    [authorizeRole(ORGANIZATION_ADMIN)]. *)
Theorem analyticsRoutes_dispatch (m : Express.method) (segments : list string)
    (r : Route) (params : list (string * string)) :
  (dispatch analyticsRoutes m segments = Some (r, params)
   ↔ r ∈ analyticsRoutes
     ∧ Express.handles (verb r) m = true
     ∧ Express.bind (path r) segments = Some params)
  ∧ (dispatch analyticsRoutes m segments = Some (r, params) →
     role r = ORGANIZATION_ADMIN).
Proof.
  assert (Hiff := clash_free_dispatch analyticsRoutes m segments r params eq_refl).
  split; [exact Hiff |].
  intros H. apply Hiff in H as [Hin _].
  unfold analyticsRoutes in Hin.
  repeat (apply elem_of_cons in Hin as [-> | Hin]; [reflexivity |]).
  by apply elem_of_nil in Hin.
Qed.

(** ** The order of the writes *)

(** X15.  A create answered 201 makes four storage calls in this order:
    the camera lookup, the insert of the rule, the binding of the
    cameras, the read-back.  In a store whose counter is ahead of every
    key in use, the store the insert leaves already holds the new rule
    but no association of it; the associations exist only from the third
    call on.  An update that rebinds cameras writes the associations
    first and the fields second: the store the binding leaves still holds
    the rule's prior row. *)
Theorem writes_in_order (s : Store) (req : Request) :
  (counter_fresh s →
   statusCode (response (addAnomaly req) s) = 201 →
   ∃ keys s1 s2,
     calls (addAnomaly req) s
     = [(CameraFindAll (Js.get (body req) "cameraIds") (user_organizationId req), s);
        (AnomalyCreate (nextAnomalyId s), s1);
        (AnomalySetCameras (nextAnomalyId s) keys, s2);
        (AnomalyFindByPk (nextAnomalyId s), s2)]
     ∧ anomalies s1 !! nextAnomalyId s = Some (created_row req s)
     ∧ (∀ c, (nextAnomalyId s, c) ∉ anomalyCameras s1)
     ∧ (∀ c, (nextAnomalyId s, c) ∈ anomalyCameras s2 ↔ c ∈ keys))
  ∧ (∀ r,
       anomalies s !! params_anomalyId req = Some r →
       statusCode (response (updateAnomaly req) s) = 200 →
       Js.truthy (Js.get (body req) "cameraIds") = true →
       ∃ keys s1 s2,
         calls (updateAnomaly req) s
         = [(AnomalyFindOne (params_anomalyId req) (user_organizationId req), s);
            (CameraFindAll (Js.get (body req) "cameraIds") (user_organizationId req), s);
            (AnomalySetCameras (params_anomalyId req) keys, s1);
            (AnomalySave (params_anomalyId req), s2);
            (AnomalyFindByPk (params_anomalyId req), s2)]
         ∧ anomalies s1 !! params_anomalyId req = Some r
         ∧ (∀ c, (params_anomalyId req, c) ∈ anomalyCameras s1 ↔ c ∈ keys)
         ∧ anomalies s2 !! params_anomalyId req = Some (merged_row req r)
         ∧ anomalyCameras s2 = anomalyCameras s1).
Proof.
  split.
  - intros [_ Hjoins] Hst. rewrite addAnomaly_status in Hst.
    pose proof (addAnomaly_created req s Hst) as Hrun. simpl in Hrun.
    unfold calls. rewrite Hrun. simpl.
    eexists _, _, _. split; [reflexivity |]. simpl.
    split; [apply lookup_insert_eq |].
    split; [| intros c; apply rebind_own].
    intros c Hin. specialize (Hjoins _ _ Hin). lia.
  - intros r Hr Hst Htruthy.
    destruct (updateAnomaly_outcomes req s)
      as [(_ & Hst' & _) | [(r0 & _ & _ & Hst' & _)
         | [(r0 & Hown & _ & Hcount & _) | (r0 & _ & Hfalsy & _)]]];
      [congruence | congruence | | congruence].
    pose proof (owned_by_inv _ _ _ _ Hown) as (_ & Hr0 & _). simpl in Hr0.
    assert (r0 = r) as -> by congruence.
    unfold calls. rewrite (updateAnomaly_rebound _ _ _ Hown Htruthy Hcount). simpl.
    eexists _, _, _. split; [reflexivity |]. simpl.
    split; [done |]. split; [intros c; apply rebind_own |].
    split; [apply lookup_insert_eq | reflexivity].
Qed.

(** ** Create, then list *)

(** X16.  After a create answered 201, the listing of the same
    organization has an entry for the new rule: the key the create
    returned, the row it stored (an absent criticality as null), and the
    resolved cameras, each with its four public columns and its join row
    to the new rule. *)
Theorem created_rule_is_listed (s : Store) (req : Request) :
  let s' := final (addAnomaly req) s in
  statusCode (response (addAnomaly req) s) = 201 →
  ∃ l,
    payload (response (getAllAnomalies req) s') = ListBody l
    ∧ {| anomalyId := nextAnomalyId s;
         columns := created_row req s;
         Cameras := Anomaly.joined s (nextAnomalyId s) public_view
                    <$> Camera.rows_in s (Js.get (body req) "cameraIds")
                                       (user_organizationId req) |} ∈ l.
Proof.
  intros s' Hst. subst s'. rewrite addAnomaly_status in Hst.
  pose proof (addAnomaly_created req s Hst) as Hrun. simpl in Hrun.
  unfold final. rewrite Hrun. simpl.
  eexists. split; [reflexivity |].
  apply list_elem_of_fmap. exists (nextAnomalyId s, created_row req s). split.
  - unfold Anomaly.included. simpl. f_equal.
    erewrite of_anomaly_rebind; [reflexivity | reflexivity | reflexivity].
  - apply list_elem_of_filter. split; [reflexivity |].
    apply elem_of_map_to_list. apply lookup_insert_eq.
Qed.

(** * Further scenarios on the example site *)

Lemma site_consistent : consistent site.
Proof.
  intros a c H. unfold site in H. simpl in H.
  apply elem_of_singleton in H. injection H as -> ->.
  exists night_rule, (gate_camera 7). repeat split; reflexivity.
Defined.

Lemma site_counter_fresh : counter_fresh site.
Proof.
  split.
  - intros a Ha. unfold site in Ha. simpl in Ha.
    apply is_Some_insert_inv in Ha as [-> | Ha]; [reflexivity |].
    rewrite lookup_empty in Ha. by destruct Ha.
  - intros a c H. unfold site in H. simpl in H.
    apply elem_of_singleton in H. injection H as -> ->. reflexivity.
Defined.

(** A create without title, an update with a foreign camera and a delete
    by organization 3: each is refused and the site is as before. *)
Lemma failed_request_changes_nothing_witness :
  statusCode (response (addAnomaly (request (untitled [Js.Num 1]))) site) = 400
  ∧ final (addAnomaly (request (untitled [Js.Num 1]))) site = site
  ∧ statusCode (response (updateAnomaly
                  (request [("title", Js.Str "Renamed"); ("cameraIds", Js.Arr [Js.Num 99])]))
                  site) = 404
  ∧ final (updateAnomaly
             (request [("title", Js.Str "Renamed"); ("cameraIds", Js.Arr [Js.Num 99])])) site
    = site
  ∧ statusCode (response (deleteAnomaly (on_behalf_of 3 (request []))) site) = 404
  ∧ final (deleteAnomaly (on_behalf_of 3 (request []))) site = site.
Proof.
  split; [reflexivity |].
  split; [exact (proj1 (failed_request_changes_nothing site
                          (request (untitled [Js.Num 1]))) (or_introl eq_refl)) |].
  split; [reflexivity |].
  split; [exact (proj1 (proj2 (failed_request_changes_nothing site
                                 (request [("title", Js.Str "Renamed");
                                           ("cameraIds", Js.Arr [Js.Num 99])]))) eq_refl) |].
  split; [reflexivity |].
  exact (proj2 (proj2 (failed_request_changes_nothing site (on_behalf_of 3 (request []))))
           eq_refl).
Defined.

Lemma handlers_keep_consistency_witness :
  consistent site
  ∧ consistent (final (addAnomaly (request (titled [Js.Num 1; Js.Num 2]))) site)
  ∧ consistent (final (updateAnomaly (request [("cameraIds", Js.Arr [Js.Num 1])])) site)
  ∧ consistent (final (deleteAnomaly (request [])) site).
Proof.
  split; [exact site_consistent |].
  split; [exact (proj1 (handlers_keep_consistency site _ site_consistent)) |].
  split; [exact (proj1 (proj2 (handlers_keep_consistency site _ site_consistent))) |].
  exact (proj2 (proj2 (handlers_keep_consistency site _ site_consistent))).
Defined.

Lemma handlers_keep_counter_fresh_witness :
  counter_fresh site
  ∧ counter_fresh (final (addAnomaly (request (titled [Js.Num 1; Js.Num 2]))) site)
  ∧ nextAnomalyId (final (addAnomaly (request (titled [Js.Num 1; Js.Num 2]))) site) = 7.
Proof.
  split; [exact site_counter_fresh |].
  split; [exact (proj1 (handlers_keep_counter_fresh site _ site_counter_fresh)) | reflexivity].
Defined.

(** Rule 5 and its association with camera 2 are still there after a
    create; the new rule has key 6. *)
Lemma addAnomaly_keeps_existing_witness :
  counter_fresh site
  ∧ statusCode (response (addAnomaly (request (titled [Js.Num 1]))) site) = 201
  ∧ anomalies site !! 6 = None
  ∧ anomalies (final (addAnomaly (request (titled [Js.Num 1]))) site) !! 5 = Some night_rule
  ∧ (5, 2) ∈ anomalyCameras (final (addAnomaly (request (titled [Js.Num 1]))) site).
Proof.
  split; [exact site_counter_fresh |]. split; [reflexivity |].
  destruct (addAnomaly_keeps_existing site (request (titled [Js.Num 1]))
              site_counter_fresh eq_refl) as (Hnone & _ & Hrules & Hjoins & _).
  split; [exact Hnone |].
  split; [exact (Hrules 5 night_rule eq_refl) |].
  apply Hjoins. unfold site. simpl. by apply elem_of_singleton_2.
Defined.

(** A body that names another organization and a status creates the same
    rule as the body without them. *)
Lemma handlers_ignore_other_fields_witness :
  ("organizationId" ∉ create_keys)
  ∧ ("anomalyId" ∉ update_keys)
  ∧ handle (addAnomaly (with_field "organizationId" (Js.Num 3) (request (titled [Js.Num 1]))))
           site
    = handle (addAnomaly (request (titled [Js.Num 1]))) site
  ∧ handle (updateAnomaly (with_field "anomalyId" (Js.Num 9)
                              (request [("title", Js.Str "Renamed")]))) site
    = handle (updateAnomaly (request [("title", Js.Str "Renamed")])) site.
Proof.
  assert (Hc : "organizationId" ∉ create_keys).
  { unfold create_keys. intros H.
    repeat (apply elem_of_cons in H as [H | H]; [discriminate |]). by apply elem_of_nil in H. }
  assert (Hu : "anomalyId" ∉ update_keys).
  { unfold update_keys. intros H.
    repeat (apply elem_of_cons in H as [H | H]; [discriminate |]). by apply elem_of_nil in H. }
  split; [exact Hc |]. split; [exact Hu |].
  split.
  - exact (proj1 (handlers_ignore_other_fields site (request (titled [Js.Num 1]))
                    "organizationId" (Js.Num 3)) Hc).
  - exact (proj2 (handlers_ignore_other_fields site (request [("title", Js.Str "Renamed")])
                    "anomalyId" (Js.Num 9)) Hu).
Defined.

(** Create a rule on the site, delete rule 6: the site again, counter 7. *)
Lemma create_then_delete_restores_witness :
  counter_fresh site
  ∧ statusCode (response (addAnomaly (request (titled [Js.Num 1; Js.Num 2]))) site) = 201
  ∧ final (deleteAnomaly (about 6 (request (titled [Js.Num 1; Js.Num 2]))))
          (final (addAnomaly (request (titled [Js.Num 1; Js.Num 2]))) site)
    = {| cameras := cameras site;
         anomalies := anomalies site;
         anomalyCameras := anomalyCameras site;
         nextAnomalyId := 7;
         statusDefault := statusDefault site;
         throughName := throughName site;
         throughJSON := throughJSON site |}.
Proof.
  split; [exact site_counter_fresh |]. split; [reflexivity |].
  exact (proj2 (proj2 (create_then_delete_restores site (request (titled [Js.Num 1; Js.Num 2]))
                         site_counter_fresh eq_refl))).
Defined.

(** Rule 5 deleted by organization 7; organization 3 then asks for it. *)
Lemma deleted_rule_is_gone_witness :
  statusCode (response (deleteAnomaly (request [])) site) = 200
  ∧ params_anomalyId (on_behalf_of 3 (request [("title", Js.Str "Renamed")]))
    = params_anomalyId (request [])
  ∧ statusCode (response (updateAnomaly (on_behalf_of 3 (request [("title", Js.Str "Renamed")])))
                         (final (deleteAnomaly (request [])) site)) = 404
  ∧ statusCode (response (deleteAnomaly (on_behalf_of 3 (request [("title", Js.Str "Renamed")])))
                         (final (deleteAnomaly (request [])) site)) = 404.
Proof.
  split; [reflexivity |]. split; [reflexivity |].
  destruct (deleted_rule_is_gone site (request [])
              (on_behalf_of 3 (request [("title", Js.Str "Renamed")])) eq_refl eq_refl)
    as (Hd & _ & Hu & _).
  split; [exact Hu | exact Hd].
Defined.

(** Organization 3 asks to update and to delete rule 5 of organization 7. *)
Lemma foreign_rule_looks_absent_witness :
  anomalies site !! 5 = Some night_rule
  ∧ AnomalyRow.organizationId night_rule ≠ 3
  ∧ response (updateAnomaly (on_behalf_of 3 (request [("cameraIds", Js.Arr [Js.Num 99])]))) site
    = response (updateAnomaly (on_behalf_of 3 (request [("cameraIds", Js.Arr [Js.Num 99])])))
               (without_rule 5 site)
  ∧ final (deleteAnomaly (on_behalf_of 3 (request [("cameraIds", Js.Arr [Js.Num 99])]))) site
    = site.
Proof.
  assert (Hforeign : AnomalyRow.organizationId night_rule ≠ 3) by discriminate.
  split; [reflexivity |]. split; [exact Hforeign |].
  destruct (foreign_rule_looks_absent site
              (on_behalf_of 3 (request [("cameraIds", Js.Arr [Js.Num 99])])) night_rule
              eq_refl Hforeign) as (Hu & _ & _ & _ & _ & Hd & _).
  split; [exact Hu | exact Hd].
Defined.

(** An empty camera array, and a weekday given as a string. *)
Lemma addAnomaly_array_guards_witness :
  Forall (λ k, Js.truthy (Js.get (body (request (titled []))) k) = true) required_fields
  ∧ Js.get (body (request (titled []))) "cameraIds" = Js.Arr []
  ∧ response (addAnomaly (request (titled []))) site
    = {| statusCode := 400; payload := ErrorBody "cameraIds must be a non-empty array" |}
  ∧ Js.isArray (Js.get (body (request (("daysOfWeek", Js.Str "Mon") :: titled [Js.Num 1])))
                       "daysOfWeek") = false
  ∧ response (addAnomaly (request (("daysOfWeek", Js.Str "Mon") :: titled [Js.Num 1]))) site
    = {| statusCode := 400; payload := ErrorBody "daysOfWeek must be an array" |}.
Proof.
  assert (H1 : Forall (λ k, Js.truthy (Js.get (body (request (titled []))) k) = true)
                 required_fields) by by_listing.
  assert (H2 : Forall (λ k, Js.truthy
                              (Js.get (body (request (("daysOfWeek", Js.Str "Mon")
                                                        :: titled [Js.Num 1]))) k) = true)
                 required_fields) by by_listing.
  split; [exact H1 |]. split; [reflexivity |].
  split.
  - unfold response.
    by rewrite (proj1 (addAnomaly_array_guards site (request (titled [])) H1)
                  (or_intror eq_refl)).
  - split; [reflexivity |]. unfold response.
    assert (Hne : [Js.Num 1] ≠ []) by discriminate.
    by rewrite (proj1 (proj2 (addAnomaly_array_guards site _ H2) [Js.Num 1] eq_refl Hne)
                  eq_refl).
Defined.

(** Rule 5 watches camera 2: an update without [cameraIds] keeps it
    there, an update with the empty array takes it away. *)
Lemma updateAnomaly_absent_or_empty_cameraIds_witness :
  anomalies site !! 5 = Some night_rule
  ∧ AnomalyRow.organizationId night_rule = 7
  ∧ Js.truthy (Js.get (body (request [("title", Js.Str "Renamed")])) "cameraIds") = false
  ∧ anomalyCameras (final (updateAnomaly (request [("title", Js.Str "Renamed")])) site)
    = anomalyCameras site
  ∧ Js.get (body (request [("cameraIds", Js.Arr [])])) "cameraIds" = Js.Arr []
  ∧ ∀ c, (5, c) ∉ anomalyCameras (final (updateAnomaly (request [("cameraIds", Js.Arr [])])) site).
Proof.
  split; [reflexivity |]. split; [reflexivity |]. split; [reflexivity |].
  split.
  - exact (proj1 (proj2 (proj1 (updateAnomaly_absent_or_empty_cameraIds site
                                  (request [("title", Js.Str "Renamed")]) night_rule
                                  eq_refl eq_refl) eq_refl))).
  - split; [reflexivity |].
    exact (proj2 (proj2 (updateAnomaly_absent_or_empty_cameraIds site
                           (request [("cameraIds", Js.Arr [])]) night_rule
                           eq_refl eq_refl) eq_refl)).
Defined.

(** GET /7/Camera/anomaly-stats reaches the statistics handler, PUT on
    the same path the camera update. *)
Lemma organizationRoutes_dispatch_witness :
  dispatch organizationRoutes Express.GET ["7"; "Camera"; "anomaly-stats"]
  = Some (route Express.GET
                [Express.Param "orgId"; Express.Lit "camera"; Express.Lit "anomaly-stats"]
                Controller.getCameraAnomalyStats,
          [("orgId", "7")])
  ∧ role (route Express.GET
                [Express.Param "orgId"; Express.Lit "camera"; Express.Lit "anomaly-stats"]
                Controller.getCameraAnomalyStats) = ORGANIZATION_ADMIN
  ∧ dispatch organizationRoutes Express.PUT ["7"; "camera"; "anomaly-stats"]
    = Some (route Express.PUT
                  [Express.Param "orgId"; Express.Lit "camera"; Express.Param "cameraId"]
                  Controller.updateCamera,
            [("orgId", "7"); ("cameraId", "anomaly-stats")]).
Proof.
  split; [reflexivity |]. split; [| reflexivity].
  exact (proj2 (organizationRoutes_dispatch Express.GET ["7"; "Camera"; "anomaly-stats"] _ _)
           eq_refl).
Defined.

(** GET /anomaly/stats reaches the statistics handler; PATCH /anomaly/12
    the alert update. *)
Lemma analyticsRoutes_dispatch_witness :
  dispatch analyticsRoutes Express.GET ["anomaly"; "stats"]
  = Some (route Express.GET [Express.Lit "anomaly"; Express.Lit "stats"]
                Controller.getAnomaliesStats, [])
  ∧ role (route Express.GET [Express.Lit "anomaly"; Express.Lit "stats"]
                Controller.getAnomaliesStats) = ORGANIZATION_ADMIN
  ∧ dispatch analyticsRoutes Express.PATCH ["anomaly"; "12"]
    = Some (route Express.PATCH [Express.Lit "anomaly"; Express.Param "alertId"]
                  Controller.updateAnomalyAlert, [("alertId", "12")]).
Proof.
  split; [reflexivity |]. split; [| reflexivity].
  exact (proj2 (analyticsRoutes_dispatch Express.GET ["anomaly"; "stats"] _ _) eq_refl).
Defined.

(** A create on the site, and an update of rule 5 to camera 1. *)
Lemma writes_in_order_witness :
  counter_fresh site
  ∧ statusCode (response (addAnomaly (request (titled [Js.Num 1]))) site) = 201
  ∧ (calls (addAnomaly (request (titled [Js.Num 1]))) site).*1
    = [CameraFindAll (Js.Arr [Js.Num 1]) 7; AnomalyCreate 6;
       AnomalySetCameras 6 [1]; AnomalyFindByPk 6]
  ∧ anomalies site !! params_anomalyId (request [("cameraIds", Js.Arr [Js.Num 1])])
    = Some night_rule
  ∧ (∃ keys s1 s2,
       (calls (updateAnomaly (request [("cameraIds", Js.Arr [Js.Num 1])])) site).*1
       = [AnomalyFindOne 5 7; CameraFindAll (Js.Arr [Js.Num 1]) 7;
          AnomalySetCameras 5 keys; AnomalySave 5; AnomalyFindByPk 5]
       ∧ calls (updateAnomaly (request [("cameraIds", Js.Arr [Js.Num 1])])) site
         = [(AnomalyFindOne 5 7, site); (CameraFindAll (Js.Arr [Js.Num 1]) 7, site);
            (AnomalySetCameras 5 keys, s1); (AnomalySave 5, s2); (AnomalyFindByPk 5, s2)]
       ∧ anomalies s1 !! 5 = Some night_rule).
Proof.
  split; [exact site_counter_fresh |]. split; [reflexivity |].
  split.
  - destruct (proj1 (writes_in_order site (request (titled [Js.Num 1])))
                site_counter_fresh eq_refl) as (keys & s1 & s2 & Hcalls & _).
    reflexivity.
  - split; [reflexivity |].
    destruct (proj2 (writes_in_order site (request [("cameraIds", Js.Arr [Js.Num 1])]))
                night_rule eq_refl eq_refl eq_refl)
      as (keys & s1 & s2 & Hcalls & Hrow & _).
    exists keys, s1, s2. split; [by rewrite Hcalls |]. split; [exact Hcalls | exact Hrow].
Defined.

(** The rule created on the site is in the listing of organization 7. *)
Lemma created_rule_is_listed_witness :
  statusCode (response (addAnomaly (request (titled [Js.Num 1]))) site) = 201
  ∧ ∃ l,
      payload (response (getAllAnomalies (request (titled [Js.Num 1])))
                        (final (addAnomaly (request (titled [Js.Num 1]))) site))
      = ListBody l
      ∧ {| anomalyId := 6;
           columns := created_row (request (titled [Js.Num 1])) site;
           Cameras := [Anomaly.joined site 6 public_view (1, gate_camera 7)] |} ∈ l.
Proof.
  split; [reflexivity |].
  exact (created_rule_is_listed site (request (titled [Js.Num 1])) eq_refl).
Defined.
